(** * Verification of filter-reputation (OpenSMTPD reputation filter)

    Two scoring strategies live in the repository:
    - [Historical] : src/unnamed/part_000, historical averaging of session
      summaries kept in a process-wide map [ipScoring] with a sweep;
    - [Incremental] : src/filter-reputation.go, live reward / penalty
      adjustment of per-resource trust values.

    Numeric model.  Go [float64] values are modelled as rationals [Q]
    (exact arithmetic, no rounding); [int] counters that are only ever
    incremented by one are modelled as [nat]; [time.Time] is modelled as
    a [Z] count of nanoseconds; a [net.IP] is modelled by its [String()]
    rendering, the key used for every map.  A Go runtime panic is the
    [None] outcome of a handler. *)

From Stdlib Require Import ZArith QArith Qminmax Lia Lqa String.
From stdpp Require Import base gmap strings list.

Open Scope Q_scope.

(** [math.Max(0.0, math.Min(1.0, x))], the clamp of both scorers. *)
Definition clamp01 (x : Q) : Q := Qmax 0 (Qmin 1 x).

Definition Q_of_nat (n : nat) : Q := inject_Z (Z.of_nat n).

(** The [src net.Addr] of a connect event: a [*net.TCPAddr] or another
    kind of address. *)
Inductive Addr :=
| TCPAddr (ip : string)
| OtherAddr (network : string).

Module Historical.

(** ** Data model (part_000, lines 51-100) *)

Record Scoring := mkScoring {
  Timestamp : Z;
  Score : Q;
  AuthFailures : nat;
  AuthSuccesses : nat;
  Resets : nat;
  RcptCount : nat;
  DataCount : nat;
  CommitCount : nat;
  RollbackCount : nat
}.

Record Transaction := mkTransaction {
  beginTime : Z;
  endTime : Z;
  mailFromOK : bool;
  rcptToOK : nat;
  rcptToTempfail : nat;
  rcptToPermfail : nat;
  sawData : bool;
  committed : bool
}.

Record SessionData := mkSessionData {
  skip : bool;
  connectTime : Z;
  disconnectTime : Z;
  addr : string;
  rdns : bool;
  fcrdns : bool;
  cmdHelo : bool;
  cmdEhlo : bool;
  heloname : string;
  cmdAuth : bool;
  authok : nat;
  authfail : nat;
  cmdTLS : bool;
  tlsString : string;
  nResets : nat;
  transactions : list Transaction
}.

(** The session allocator of [main]: [&SessionData{}].  A nil [net.IP]
    renders as ["<nil>"]. *)
Definition zeroSession : SessionData :=
  mkSessionData false 0 0 "<nil>" false false false false "" false 0 0 false "" 0 [].

Definition zeroScoring : Scoring := mkScoring 0 0 0 0 0 0 0 0 0.

(** ** Scorers (part_000, lines 102-185) *)

Definition validSenderWeight : Q := 0.4.
Definition dataWeight : Q := 0.3.
Definition commitWeight : Q := 0.3.
Definition successfulRecipientWeight : Q := 0.1.
Definition failedRecipientPenalty : Q := 0.2.

Definition scoreTransaction (tx : Transaction) : Q :=
  let baseScore := 0 in
  let baseScore := if mailFromOK tx then baseScore + validSenderWeight else baseScore in
  let baseScore := if sawData tx then baseScore + dataWeight else baseScore in
  let baseScore := if committed tx then baseScore + commitWeight else baseScore in
  let baseScore := baseScore + Q_of_nat (rcptToOK tx) * successfulRecipientWeight in
  let baseScore := baseScore
    - Q_of_nat (rcptToTempfail tx + rcptToPermfail tx)%nat * failedRecipientPenalty in
  Qmax 0 (Qmin 1 baseScore).

Definition authSuccessWeight : Q := 0.1.
Definition authFailurePenalty : Q := 0.1.
Definition tlsWeight : Q := 0.2.
Definition rdnsWeight : Q := 0.1.
Definition fcrdnsWeight : Q := 0.1.
Definition resetPenalty : Q := 0.05.

Definition scoreSession (session : SessionData) : Q :=
  let baseScore := 0 in
  let totalTransactions := length (transactions session) in
  let baseScore :=
    if (0 <? totalTransactions)%nat then
      let transactionScore :=
        fold_left (fun acc tx => acc + scoreTransaction tx) (transactions session) 0 in
      baseScore + transactionScore / Q_of_nat totalTransactions
    else baseScore in
  let baseScore := baseScore + Q_of_nat (authok session) * authSuccessWeight in
  let baseScore := baseScore - Q_of_nat (authfail session) * authFailurePenalty in
  let baseScore := if cmdTLS session then baseScore + tlsWeight else baseScore in
  let baseScore := if rdns session then baseScore + rdnsWeight else baseScore in
  let baseScore := if fcrdns session then baseScore + fcrdnsWeight else baseScore in
  let baseScore := baseScore - Q_of_nat (nResets session) * resetPenalty in
  Qmax 0 (Qmin 1 baseScore).

(** ** Summaries and the historical store (part_000, lines 30-49, 187-241) *)

(** [summarizeSession]; [now] is the value of [time.Now()]. *)
Definition summarizeSession (now : Z) (session : SessionData) : Scoring :=
  let '(rcptCount, dataCount, commitCount, rollbackCount) :=
    fold_left (fun '(r, d, c, rb) tx =>
      let r := (r + (rcptToOK tx + rcptToTempfail tx + rcptToPermfail tx))%nat in
      let d := if sawData tx then S d else d in
      let '(c, rb) := if committed tx then (S c, rb) else (c, S rb) in
      (r, d, c, rb)) (transactions session) (0, 0, 0, 0)%nat in
  {| Timestamp := now;
     Score := scoreSession session;
     AuthFailures := authfail session;
     AuthSuccesses := authok session;
     Resets := nResets session;
     RcptCount := rcptCount;
     DataCount := dataCount;
     CommitCount := commitCount;
     RollbackCount := rollbackCount |}.

Definition addScoring (aggregate score : Scoring) : Scoring :=
  {| Timestamp := Timestamp aggregate;
     Score := Score aggregate + Score score;
     AuthFailures := (AuthFailures aggregate + AuthFailures score)%nat;
     AuthSuccesses := (AuthSuccesses aggregate + AuthSuccesses score)%nat;
     Resets := (Resets aggregate + Resets score)%nat;
     RcptCount := (RcptCount aggregate + RcptCount score)%nat;
     DataCount := (DataCount aggregate + DataCount score)%nat;
     CommitCount := (CommitCount aggregate + CommitCount score)%nat;
     RollbackCount := (RollbackCount aggregate + RollbackCount score)%nat |}.

Definition aggregateScoring (scores : list Scoring) : Scoring :=
  match scores with
  | [] => zeroScoring
  | _ =>
    let totalScores := length scores in
    let aggregate := fold_left addScoring scores zeroScoring in
    {| Timestamp := Timestamp aggregate;
       Score := Score aggregate / Q_of_nat totalScores;
       AuthFailures := AuthFailures aggregate;
       AuthSuccesses := AuthSuccesses aggregate;
       Resets := Resets aggregate;
       RcptCount := RcptCount aggregate;
       DataCount := DataCount aggregate;
       CommitCount := CommitCount aggregate;
       RollbackCount := RollbackCount aggregate |}
  end.

(** The process-wide [ipScoring] map, keyed by [addr.String()]. *)
Abbreviation Store := (gmap string (list Scoring)).

(** The store update of [linkDisconnectCb]:
    [ipScoring[k] = append(ipScoring[k], summary)]; a missing key reads as
    the nil slice. *)
Definition recordSession (store : Store) (k : string) (summary : Scoring) : Store :=
  <[k := default [] (store !! k) ++ [summary]]> store.

(** [5 * 24 * time.Hour] in nanoseconds. *)
Definition fiveDays : Z := (5 * 24 * 3600 * 1000000000)%Z.

(** One iteration of the sweep loop body for key [ip] holding [scoring].
    [clock ip] is the value returned by [time.Now()] when the key is
    examined.  [scoring[len(scoring)-1]] on an empty slice panics
    ([None]). *)
Definition sweepKey (clock : string -> Z) (ip : string) (scoring : list Scoring)
    (acc : option Store) : option Store :=
  acc ≫= fun st =>
  if (100 <? length scoring)%nat then
    Some (<[ip := drop (length scoring - 100) scoring]> st)
  else
    match last scoring with
    | None => None
    | Some newest =>
      if (Timestamp newest + fiveDays <? clock ip)%Z then Some (delete ip st)
      else Some st
    end.

(** One pass of the background loop started by [init]: the [range] walks
    the map as it was when the pass started, and the body only writes
    the key it is visiting. *)
Definition sweep (clock : string -> Z) (store : Store) : option Store :=
  map_fold (sweepKey clock) (Some store) store.

(** Stores the program can reach: the empty map, then any interleaving of
    disconnect appends and sweep passes. *)
Inductive store_reachable : Store -> Prop :=
| reach_empty : store_reachable ∅
| reach_record st k summary :
    store_reachable st -> store_reachable (recordSession st k summary)
| reach_sweep st clock st' :
    store_reachable st -> sweep clock st = Some st' -> store_reachable st'.

(** ** Event handlers (part_000, lines 243-386) *)

Inductive Event :=
| LinkConnect (ts : Z) (rdns fcrdns : string) (src : Addr)
| LinkDisconnect (ts : Z)
| LinkIdentify (ts : Z) (method hostname : string)
| LinkAuth (ts : Z) (result username : string)
| LinkTLS (ts : Z) (tlsString : string)
| TxReset (ts : Z)
| TxBegin (ts : Z)
| TxMail (ts : Z) (result from : string)
| TxRcpt (ts : Z) (result to : string)
| TxData (ts : Z) (result : string)
| TxCommit (ts : Z) (messageSize : Z)
| TxRollback (ts : Z).

(** The prior read at connect (lines 256-265). *)
Definition connectScore (store : Store) (key : string) : Q :=
  match store !! key with
  | Some scorings =>
    if (length scorings <? 5)%nat then 0.5 else Score (aggregateScoring scorings)
  | None => 0.5
  end.

Definition setSkip (s : SessionData) : SessionData :=
  {| skip := true; connectTime := connectTime s; disconnectTime := disconnectTime s;
     addr := addr s; rdns := rdns s; fcrdns := fcrdns s; cmdHelo := cmdHelo s;
     cmdEhlo := cmdEhlo s; heloname := heloname s; cmdAuth := cmdAuth s;
     authok := authok s; authfail := authfail s; cmdTLS := cmdTLS s;
     tlsString := tlsString s; nResets := nResets s; transactions := transactions s |}.

(** [linkConnectCb]: the new session state and, for a TCP source, the
    score it logs. *)
Definition linkConnectCb (store : Store) (ts : Z) (s : SessionData)
    (rdns' fcrdns' : string) (src : Addr) : SessionData * option Q :=
  match src with
  | OtherAddr _ => (setSkip s, None)
  | TCPAddr ip =>
    let s' :=
      {| skip := skip s; connectTime := ts; disconnectTime := disconnectTime s;
         addr := ip; rdns := negb (String.eqb rdns' "<unknown>");
         fcrdns := String.eqb fcrdns' "ok" || String.eqb fcrdns' "pass";
         cmdHelo := cmdHelo s; cmdEhlo := cmdEhlo s; heloname := heloname s;
         cmdAuth := cmdAuth s; authok := authok s; authfail := authfail s;
         cmdTLS := cmdTLS s; tlsString := tlsString s; nResets := nResets s;
         transactions := [] |} in
    (s', Some (connectScore store ip))
  end.

(** Session updates of the handlers below, one field each. *)
Definition setDisconnectTime (ts : Z) (s : SessionData) : SessionData :=
  {| skip := skip s; connectTime := connectTime s; disconnectTime := ts;
     addr := addr s; rdns := rdns s; fcrdns := fcrdns s; cmdHelo := cmdHelo s;
     cmdEhlo := cmdEhlo s; heloname := heloname s; cmdAuth := cmdAuth s;
     authok := authok s; authfail := authfail s; cmdTLS := cmdTLS s;
     tlsString := tlsString s; nResets := nResets s; transactions := transactions s |}.

Definition setIdentify (method hostname : string) (s : SessionData) : SessionData :=
  {| skip := skip s; connectTime := connectTime s; disconnectTime := disconnectTime s;
     addr := addr s; rdns := rdns s; fcrdns := fcrdns s;
     cmdHelo := if String.eqb method "HELO" then true else cmdHelo s;
     cmdEhlo := if String.eqb method "EHLO" then true else cmdEhlo s;
     heloname := hostname; cmdAuth := cmdAuth s;
     authok := authok s; authfail := authfail s; cmdTLS := cmdTLS s;
     tlsString := tlsString s; nResets := nResets s; transactions := transactions s |}.

Definition setAuth (result : string) (s : SessionData) : SessionData :=
  let ok := String.eqb result "ok" in
  {| skip := skip s; connectTime := connectTime s; disconnectTime := disconnectTime s;
     addr := addr s; rdns := rdns s; fcrdns := fcrdns s; cmdHelo := cmdHelo s;
     cmdEhlo := cmdEhlo s; heloname := heloname s; cmdAuth := true;
     authok := if ok then S (authok s) else authok s;
     authfail := if ok then authfail s else S (authfail s);
     cmdTLS := cmdTLS s;
     tlsString := tlsString s; nResets := nResets s; transactions := transactions s |}.

Definition setTLS (tls : string) (s : SessionData) : SessionData :=
  {| skip := skip s; connectTime := connectTime s; disconnectTime := disconnectTime s;
     addr := addr s; rdns := rdns s; fcrdns := fcrdns s; cmdHelo := cmdHelo s;
     cmdEhlo := cmdEhlo s; heloname := heloname s; cmdAuth := cmdAuth s;
     authok := authok s; authfail := authfail s; cmdTLS := true;
     tlsString := tls; nResets := nResets s; transactions := transactions s |}.

Definition incResets (s : SessionData) : SessionData :=
  {| skip := skip s; connectTime := connectTime s; disconnectTime := disconnectTime s;
     addr := addr s; rdns := rdns s; fcrdns := fcrdns s; cmdHelo := cmdHelo s;
     cmdEhlo := cmdEhlo s; heloname := heloname s; cmdAuth := cmdAuth s;
     authok := authok s; authfail := authfail s; cmdTLS := cmdTLS s;
     tlsString := tlsString s; nResets := S (nResets s); transactions := transactions s |}.

Definition setTransactions (txs : list Transaction) (s : SessionData) : SessionData :=
  {| skip := skip s; connectTime := connectTime s; disconnectTime := disconnectTime s;
     addr := addr s; rdns := rdns s; fcrdns := fcrdns s; cmdHelo := cmdHelo s;
     cmdEhlo := cmdEhlo s; heloname := heloname s; cmdAuth := cmdAuth s;
     authok := authok s; authfail := authfail s; cmdTLS := cmdTLS s;
     tlsString := tlsString s; nResets := nResets s; transactions := txs |}.

(** [tx := transactions[len(transactions)-1]] followed by writes through the
    pointer [tx]: the last transaction is replaced by [f tx].  On an empty
    slice the index is [-1] and Go panics ([None]). *)
Definition updateLastTx (f : Transaction -> Transaction) (s : SessionData)
    : option SessionData :=
  match rev (transactions s) with
  | [] => None
  | tx :: older => Some (setTransactions (rev older ++ [f tx]) s)
  end.

Definition txMail (result : string) (tx : Transaction) : Transaction :=
  {| beginTime := beginTime tx; endTime := endTime tx;
     mailFromOK := if String.eqb result "ok" then true else mailFromOK tx;
     rcptToOK := rcptToOK tx; rcptToTempfail := rcptToTempfail tx;
     rcptToPermfail := rcptToPermfail tx; sawData := sawData tx;
     committed := committed tx |}.

Definition txRcpt (result : string) (tx : Transaction) : Transaction :=
  {| beginTime := beginTime tx; endTime := endTime tx; mailFromOK := mailFromOK tx;
     rcptToOK := if String.eqb result "ok" then S (rcptToOK tx) else rcptToOK tx;
     rcptToTempfail :=
       if String.eqb result "ok" then rcptToTempfail tx
       else if String.eqb result "tempfail" then S (rcptToTempfail tx)
       else rcptToTempfail tx;
     rcptToPermfail :=
       if String.eqb result "ok" then rcptToPermfail tx
       else if String.eqb result "tempfail" then rcptToPermfail tx
       else if String.eqb result "permfail" then S (rcptToPermfail tx)
       else rcptToPermfail tx;
     sawData := sawData tx; committed := committed tx |}.

Definition txData (tx : Transaction) : Transaction :=
  {| beginTime := beginTime tx; endTime := endTime tx; mailFromOK := mailFromOK tx;
     rcptToOK := rcptToOK tx; rcptToTempfail := rcptToTempfail tx;
     rcptToPermfail := rcptToPermfail tx; sawData := true; committed := committed tx |}.

Definition txEnd (ts : Z) (commit : bool) (tx : Transaction) : Transaction :=
  {| beginTime := beginTime tx; endTime := ts; mailFromOK := mailFromOK tx;
     rcptToOK := rcptToOK tx; rcptToTempfail := rcptToTempfail tx;
     rcptToPermfail := rcptToPermfail tx; sawData := sawData tx;
     committed := if commit then true else committed tx |}.

Definition newTransaction (ts : Z) : Transaction :=
  {| beginTime := ts; endTime := 0; mailFromOK := false; rcptToOK := 0;
     rcptToTempfail := 0; rcptToPermfail := 0; sawData := false; committed := false |}.

(** Dispatch of one event to its handler, threading the session and the
    shared store; [now] is [time.Now()] at the call.  Every handler but
    [linkConnectCb] starts with [if skip { return }]. *)
Definition handle (now : Z) (ev : Event) (st : SessionData * Store)
    : option (SessionData * Store) :=
  let '(s, store) := st in
  match ev with
  | LinkConnect ts rd fc src => Some (fst (linkConnectCb store ts s rd fc src), store)
  | _ =>
    if skip s then Some (s, store) else
    match ev with
    | LinkConnect _ _ _ _ => Some (s, store)
    | LinkDisconnect ts =>
      let s' := setDisconnectTime ts s in
      Some (s', recordSession store (addr s') (summarizeSession now s'))
    | LinkIdentify _ method hostname => Some (setIdentify method hostname s, store)
    | LinkAuth _ result _ => Some (setAuth result s, store)
    | LinkTLS _ tls => Some (setTLS tls s, store)
    | TxReset _ => Some (incResets s, store)
    | TxBegin ts => Some (setTransactions (transactions s ++ [newTransaction ts]) s, store)
    | TxMail _ result _ => s' ← updateLastTx (txMail result) s; Some (s', store)
    | TxRcpt _ result _ => s' ← updateLastTx (txRcpt result) s; Some (s', store)
    | TxData _ _ => s' ← updateLastTx txData s; Some (s', store)
    | TxCommit ts _ => s' ← updateLastTx (txEnd ts true) s; Some (s', store)
    | TxRollback ts => s' ← updateLastTx (txEnd ts false) s; Some (s', store)
    end
  end.

(** A sequence of events of one session, each handled at the clock value
    paired with it. *)
Fixpoint run (evs : list (Z * Event)) (st : SessionData * Store)
    : option (SessionData * Store) :=
  match evs with
  | [] => Some st
  | (now, ev) :: rest => st' ← handle now ev st; run rest st'
  end.


Definition isConnect (ev : Event) : bool :=
  match ev with LinkConnect _ _ _ _ => true | _ => false end.

End Historical.

Module Incremental.

(** ** Reward and penalty (filter-reputation.go, lines 29-66) *)

Definition basePenalty : Q := 0.1.
Definition baseReward : Q := 0.05.

Definition degradationFactors : gmap string Q :=
  list_to_map [("IP", 1.0); ("rDNS", 0.8); ("heloname", 0.6);
               ("mailFrom", 0.4); ("mailDomain", 0.2); ("recipient", 0.5)].

(** [degradationFactors[resourceType]]: a missing key reads as [0]. *)
Definition factor (resourceType : string) : Q :=
  default 0 (degradationFactors !! resourceType).

Definition ipWeight : Q := 0.5.
Definition rdnsWeight : Q := 0.3.
Definition helonameWeight : Q := 0.2.

Definition clamp (value min max : Q) : Q :=
  if Qlt_le_dec value min then min
  else if Qlt_le_dec max value then max
  else value.

Definition applyPenalty (resourceType : string) (reputationScore : Q) : Q :=
  let penalty := basePenalty * factor resourceType in
  clamp (reputationScore - penalty) 0 1.

Definition applyReward (resourceType : string) (reputationScore : Q) : Q :=
  let reward := baseReward * factor resourceType in
  clamp (reputationScore + reward) 0 1.

(** ** The shared trust tables (lines 68-111) *)

Record Reputation := mkReputation {
  ipAddress : gmap string Q;
  rdns : gmap string Q;
  hostname : gmap string Q
}.

Definition NewReputation : Reputation := mkReputation ∅ ∅ ∅.

Definition IPAddress (r : Reputation) (ip : string) : Q :=
  match ipAddress r !! ip with Some score => score | None => 0.5 end.

Definition ReverseDNS (r : Reputation) (name : string) : Q :=
  match rdns r !! name with Some score => score | None => 0.5 end.

Definition Hostname (r : Reputation) (name : string) : Q :=
  match hostname r !! name with Some score => score | None => 0.5 end.

(** ** Session state (lines 138-166) *)

Record SessionData := mkSessionData {
  hasReverseDNS : bool;
  hasFcReverseDNS : bool;
  hasStartTLS : bool;
  hasAuth : bool;
  hasEHLO : bool;
  rDNS : string;
  ip : string;
  heloname : string;
  txBegin : nat;
  txData : nat;
  txCommit : nat;
  txRollback : nat;
  txMailFrom : nat;
  txRcptTo : nat;
  rsetCount : nat;
  failedAuth : nat;
  failedMail : nat;
  failedRcpt : nat;
  overallReputation : Q;
  ipReputation : Q;
  rdnsReputation : Q;
  heloReputation : Q
}.

Definition zeroSession : SessionData :=
  mkSessionData false false false false false "" "<nil>" "" 0 0 0 0 0 0 0 0 0 0 0 0 0 0.

(** ** Feedback and disconnect (lines 113-136, 201-204) *)

Definition setResourceReputations (ipRep rdnsRep heloRep : Q) (s : SessionData)
    : SessionData :=
  {| hasReverseDNS := hasReverseDNS s; hasFcReverseDNS := hasFcReverseDNS s;
     hasStartTLS := hasStartTLS s; hasAuth := hasAuth s; hasEHLO := hasEHLO s;
     rDNS := rDNS s; ip := ip s; heloname := heloname s;
     txBegin := txBegin s; txData := txData s; txCommit := txCommit s;
     txRollback := txRollback s; txMailFrom := txMailFrom s; txRcptTo := txRcptTo s;
     rsetCount := rsetCount s; failedAuth := failedAuth s; failedMail := failedMail s;
     failedRcpt := failedRcpt s; overallReputation := overallReputation s;
     ipReputation := ipRep; rdnsReputation := rdnsRep; heloReputation := heloRep |}.

(** The method [Feedback] of [*Reputation] writes through both pointers: the new tables
    and the new session are returned. *)
Definition Feedback (r : Reputation) (session : SessionData) : Reputation * SessionData :=
  let overall := overallReputation session in
  let ipFeedback := overall * ipWeight in
  let rdnsFeedback := overall * rdnsWeight in
  let hostnameFeedback := overall * helonameWeight in
  let ipRep := clamp ((ipReputation session + ipFeedback) / 2) 0 1 in
  let rdnsRep := clamp ((rdnsReputation session + rdnsFeedback) / 2) 0 1 in
  let heloRep := clamp ((heloReputation session + hostnameFeedback) / 2) 0 1 in
  let session := setResourceReputations ipRep rdnsRep heloRep session in
  let r := {| ipAddress := <[ip session := ipReputation session]> (ipAddress r);
              rdns := <[rDNS session := rdnsReputation session]> (rdns r);
              hostname := <[heloname session := heloReputation session]> (hostname r) |} in
  (r, session).

Definition linkDisconnectCb (r : Reputation) (ts : Z) (s : SessionData)
    : Reputation * SessionData :=
  Feedback r s.

(** ** Connect (lines 168-199) *)

Section Connect.

(** Go's [strings.ToLower] (Unicode case mapping), kept abstract. *)
Variable ToLower : string -> string.

Definition setConnect (ip' rdns' : string) (hasR hasFc : bool)
    (overall ipRep rdnsRep : Q) (s : SessionData) : SessionData :=
  {| hasReverseDNS := hasR; hasFcReverseDNS := hasFc;
     hasStartTLS := hasStartTLS s; hasAuth := hasAuth s; hasEHLO := hasEHLO s;
     rDNS := rdns'; ip := ip'; heloname := heloname s;
     txBegin := txBegin s; txData := txData s; txCommit := txCommit s;
     txRollback := txRollback s; txMailFrom := txMailFrom s; txRcptTo := txRcptTo s;
     rsetCount := rsetCount s; failedAuth := failedAuth s; failedMail := failedMail s;
     failedRcpt := failedRcpt s; overallReputation := overall;
     ipReputation := ipRep; rdnsReputation := rdnsRep; heloReputation := heloReputation s |}.

(** The type assertion of [src] to [*net.TCPAddr] has a single result: it panics
    ([None]) when the source is not a TCP address. *)
Definition linkConnectCb (r : Reputation) (ts : Z) (s : SessionData)
    (rdns' fcrdns' : string) (src : Addr) : option SessionData :=
  match src with
  | OtherAddr _ => None
  | TCPAddr ip' =>
    let rDNS' := ToLower rdns' in
    let hasR := negb (String.eqb rdns' "<unknown>") in
    let hasFc := negb (String.eqb fcrdns' "ok") in
    let ipScore := IPAddress r ip' in
    let rdnsScore := ReverseDNS r rDNS' in
    let overall := ((ipScore * ipWeight) + (rdnsScore * rdnsWeight)) / 2 in
    let '(ipScore, rdnsScore) :=
      if negb hasR then (applyPenalty "rDNS" ipScore, applyPenalty "rDNS" rdnsScore)
      else (applyReward "rDNS" ipScore, applyReward "rDNS" rdnsScore) in
    let '(ipScore, rdnsScore) :=
      if negb hasFc then (applyPenalty "FCrDNS" ipScore, applyPenalty "rDNS" rdnsScore)
      else (applyReward "FCrDNS" ipScore, applyReward "rDNS" rdnsScore) in
    Some (setConnect ip' rDNS' hasR hasFc overall ipScore rdnsScore s)
  end.

(** ** The other handlers (lines 206-295) *)

Definition setIdentify (ehlo : bool) (helo : string) (heloRep overall : Q)
    (s : SessionData) : SessionData :=
  {| hasReverseDNS := hasReverseDNS s; hasFcReverseDNS := hasFcReverseDNS s;
     hasStartTLS := hasStartTLS s; hasAuth := hasAuth s; hasEHLO := ehlo;
     rDNS := rDNS s; ip := ip s; heloname := helo;
     txBegin := txBegin s; txData := txData s; txCommit := txCommit s;
     txRollback := txRollback s; txMailFrom := txMailFrom s; txRcptTo := txRcptTo s;
     rsetCount := rsetCount s; failedAuth := failedAuth s; failedMail := failedMail s;
     failedRcpt := failedRcpt s; overallReputation := overall;
     ipReputation := ipReputation s; rdnsReputation := rdnsReputation s;
     heloReputation := heloRep |}.

Definition linkIdentifyCb (r : Reputation) (ts : Z) (s : SessionData)
    (method hostname' : string) : SessionData :=
  let ehlo := String.eqb method "EHLO" in
  let helo := ToLower hostname' in
  let ipScore := IPAddress r (ip s) in
  let rdnsScore := ReverseDNS r (rDNS s) in
  let helonameScore := Hostname r helo in
  let '(ipScore, rdnsScore, helonameScore) :=
    if hasReverseDNS s then
      if negb (String.eqb (ToLower hostname') (rDNS s)) then
        (applyPenalty "heloname" ipScore, applyPenalty "heloname" rdnsScore,
         applyPenalty "heloname" helonameScore)
      else
        (applyReward "heloname" ipScore, applyReward "heloname" rdnsScore,
         applyReward "heloname" helonameScore)
    else (ipScore, rdnsScore, helonameScore) in
  let overall :=
    ((ipScore * ipWeight) + (rdnsScore * rdnsWeight) + (helonameScore * helonameWeight)) / 3 in
  setIdentify ehlo helo helonameScore overall s.

(** The counters, flags and overall trust touched by the auth, TLS and
    transaction handlers. *)
Definition setActivity (startTLS auth : bool)
    (nBegin nData nCommit nRollback nMail nRcpt nRset nFailedAuth nFailedMail
     nFailedRcpt : nat) (overall : Q) (s : SessionData) : SessionData :=
  {| hasReverseDNS := hasReverseDNS s; hasFcReverseDNS := hasFcReverseDNS s;
     hasStartTLS := startTLS; hasAuth := auth; hasEHLO := hasEHLO s;
     rDNS := rDNS s; ip := ip s; heloname := heloname s;
     txBegin := nBegin; txData := nData; txCommit := nCommit;
     txRollback := nRollback; txMailFrom := nMail; txRcptTo := nRcpt;
     rsetCount := nRset; failedAuth := nFailedAuth; failedMail := nFailedMail;
     failedRcpt := nFailedRcpt; overallReputation := overall;
     ipReputation := ipReputation s; rdnsReputation := rdnsReputation s;
     heloReputation := heloReputation s |}.

Definition linkAuthCb (s : SessionData) (result : string) : SessionData :=
  if negb (String.eqb result "ok") then
    setActivity (hasStartTLS s) (hasAuth s) (txBegin s) (txData s) (txCommit s)
      (txRollback s) (txMailFrom s) (txRcptTo s) (rsetCount s) (S (failedAuth s))
      (failedMail s) (failedRcpt s) (overallReputation s) s
  else
    setActivity (hasStartTLS s) true (txBegin s) (txData s) (txCommit s)
      (txRollback s) (txMailFrom s) (txRcptTo s) (rsetCount s) (failedAuth s)
      (failedMail s) (failedRcpt s) (overallReputation s) s.

Definition linkTLSCb (s : SessionData) : SessionData :=
  setActivity true (hasAuth s) (txBegin s) (txData s) (txCommit s)
    (txRollback s) (txMailFrom s) (txRcptTo s) (rsetCount s) (failedAuth s)
    (failedMail s) (failedRcpt s) (overallReputation s) s.

Definition txResetCb (s : SessionData) : SessionData :=
  setActivity (hasStartTLS s) (hasAuth s) (txBegin s) (txData s) (txCommit s)
    (txRollback s) (txMailFrom s) (txRcptTo s) (rsetCount s + 1) (failedAuth s)
    (failedMail s) (failedRcpt s) (overallReputation s) s.

Definition txBeginCb (s : SessionData) : SessionData :=
  setActivity (hasStartTLS s) (hasAuth s) (txBegin s + 1) (txData s) (txCommit s)
    (txRollback s) (txMailFrom s) (txRcptTo s) (rsetCount s) (failedAuth s)
    (failedMail s) (failedRcpt s) (overallReputation s) s.

Definition txMailCb (s : SessionData) (result : string) : SessionData :=
  if negb (String.eqb result "ok") then
    setActivity (hasStartTLS s) (hasAuth s) (txBegin s) (txData s) (txCommit s)
      (txRollback s) (txMailFrom s + 1) (txRcptTo s) (rsetCount s) (failedAuth s)
      (S (failedMail s)) (failedRcpt s)
      (applyPenalty "mailFrom" (overallReputation s)) s
  else
    setActivity (hasStartTLS s) (hasAuth s) (txBegin s) (txData s) (txCommit s)
      (txRollback s) (txMailFrom s + 1) (txRcptTo s) (rsetCount s) (failedAuth s)
      (failedMail s) (failedRcpt s)
      (applyReward "mailFrom" (overallReputation s)) s.

Definition txRcptCb (s : SessionData) (result : string) : SessionData :=
  if negb (String.eqb result "ok") then
    setActivity (hasStartTLS s) (hasAuth s) (txBegin s) (txData s) (txCommit s)
      (txRollback s) (txMailFrom s) (txRcptTo s + 1) (rsetCount s) (failedAuth s)
      (failedMail s) (S (failedRcpt s))
      (applyPenalty "recipient" (overallReputation s)) s
  else
    setActivity (hasStartTLS s) (hasAuth s) (txBegin s) (txData s) (txCommit s)
      (txRollback s) (txMailFrom s) (txRcptTo s + 1) (rsetCount s) (failedAuth s)
      (failedMail s) (failedRcpt s)
      (applyReward "recipient" (overallReputation s)) s.

Definition txDataCb (s : SessionData) : SessionData :=
  setActivity (hasStartTLS s) (hasAuth s) (txBegin s) (txData s + 1) (txCommit s)
    (txRollback s) (txMailFrom s) (txRcptTo s) (rsetCount s) (failedAuth s)
    (failedMail s) (failedRcpt s) (overallReputation s) s.

Definition txCommitCb (s : SessionData) : SessionData :=
  setActivity (hasStartTLS s) (hasAuth s) (txBegin s) (txData s) (txCommit s + 1)
    (txRollback s) (txMailFrom s) (txRcptTo s) (rsetCount s) (failedAuth s)
    (failedMail s) (failedRcpt s) (overallReputation s) s.

Definition txRollbackCb (s : SessionData) : SessionData :=
  setActivity (hasStartTLS s) (hasAuth s) (txBegin s) (txData s) (txCommit s)
    (txRollback s + 1) (txMailFrom s) (txRcptTo s) (rsetCount s) (failedAuth s)
    (failedMail s) (failedRcpt s) (overallReputation s) s.

(** Dispatch of one event, threading the shared tables and the session
    (the [reputation] global and [session.Get()]); [None] is a panic. *)
Definition handle (ev : Historical.Event) (st : Reputation * SessionData)
    : option (Reputation * SessionData) :=
  let '(r, s) := st in
  match ev with
  | Historical.LinkConnect ts rd fc src => s' ← linkConnectCb r ts s rd fc src; Some (r, s')
  | Historical.LinkDisconnect ts => Some (linkDisconnectCb r ts s)
  | Historical.LinkIdentify ts method hostname' => Some (r, linkIdentifyCb r ts s method hostname')
  | Historical.LinkAuth _ result _ => Some (r, linkAuthCb s result)
  | Historical.LinkTLS _ _ => Some (r, linkTLSCb s)
  | Historical.TxReset _ => Some (r, txResetCb s)
  | Historical.TxBegin _ => Some (r, txBeginCb s)
  | Historical.TxMail _ result _ => Some (r, txMailCb s result)
  | Historical.TxRcpt _ result _ => Some (r, txRcptCb s result)
  | Historical.TxData _ _ => Some (r, txDataCb s)
  | Historical.TxCommit _ _ => Some (r, txCommitCb s)
  | Historical.TxRollback _ => Some (r, txRollbackCb s)
  end.

Fixpoint run (evs : list Historical.Event) (st : Reputation * SessionData)
    : option (Reputation * SessionData) :=
  match evs with
  | [] => Some st
  | ev :: rest => st' ← handle ev st; run rest st'
  end.

End Connect.

End Incremental.

(** * Properties *)

Module HistoricalFacts.
Import Historical.

Lemma Q_of_nat_add (a b : nat) : Q_of_nat (a + b) == Q_of_nat a + Q_of_nat b.
Proof. unfold Q_of_nat. rewrite Nat2Z.inj_add, inject_Z_plus. reflexivity. Qed.

Lemma clamp01_compat (x y : Q) : x == y -> Qmax 0 (Qmin 1 x) == clamp01 y.
Proof. intros H. unfold clamp01. rewrite H. reflexivity. Qed.

Definition sumQ (l : list Q) : Q := fold_right Qplus 0 l.

Lemma fold_left_plus_sum (f : Transaction -> Q) (txs : list Transaction) (a : Q) :
  fold_left (fun acc tx => acc + f tx) txs a == a + sumQ (map f txs).
Proof.
  revert a. induction txs as [|tx txs IH]; intros a; simpl.
  - ring.
  - rewrite IH. ring.
Qed.

(** C1: the transaction score is [0], plus 0.4 for an accepted sender, 0.3
    for a data phase, 0.3 for a commit, plus 0.1 per accepted recipient,
    minus 0.2 per temp- or perm-failed recipient, clamped to [0,1]; the
    scenario (accepted sender, data, commit, two accepted recipients, no
    failure) scores exactly 1. *)
Theorem scoreTransaction_formula (tx : Transaction) :
  scoreTransaction tx ==
    clamp01 ((if mailFromOK tx then 0.4 else 0) + (if sawData tx then 0.3 else 0)
             + (if committed tx then 0.3 else 0) + 0.1 * Q_of_nat (rcptToOK tx)
             - 0.2 * (Q_of_nat (rcptToTempfail tx) + Q_of_nat (rcptToPermfail tx)))
  /\ scoreTransaction (mkTransaction 0 0 true 2 0 0 true true) == 1.
Proof.
  split; [|reflexivity].
  unfold scoreTransaction. apply clamp01_compat.
  rewrite Q_of_nat_add. unfold validSenderWeight, dataWeight, commitWeight,
    successfulRecipientWeight, failedRecipientPenalty.
  destruct (mailFromOK tx), (sawData tx), (committed tx); ring.
Qed.

(** C2: the session score is the mean of the transaction scores (0 with no
    transaction), plus 0.1 per authentication success, minus 0.1 per
    authentication failure, plus 0.2 for TLS, 0.1 for reverse DNS, 0.1 for
    forward-confirmed reverse DNS, minus 0.05 per reset, clamped to [0,1]. *)
Theorem scoreSession_formula (s : SessionData) :
  scoreSession s ==
    clamp01 ((match transactions s with
              | [] => 0
              | txs => sumQ (map scoreTransaction txs) / Q_of_nat (length txs)
              end)
             + 0.1 * Q_of_nat (authok s) - 0.1 * Q_of_nat (authfail s)
             + (if cmdTLS s then 0.2 else 0) + (if rdns s then 0.1 else 0)
             + (if fcrdns s then 0.1 else 0) - 0.05 * Q_of_nat (nResets s)).
Proof.
  unfold scoreSession. apply clamp01_compat.
  unfold authSuccessWeight, authFailurePenalty, tlsWeight, rdnsWeight,
    fcrdnsWeight, resetPenalty.
  destruct (transactions s) as [|tx txs]; cbn [length Nat.ltb Nat.leb].
  - destruct (cmdTLS s), (rdns s), (fcrdns s); ring.
  - destruct (cmdTLS s), (rdns s), (fcrdns s);
      rewrite fold_left_plus_sum; unfold Qdiv; ring.
Qed.

Lemma fold_addScoring_Score (l : list Scoring) (a : Scoring) :
  Score (fold_left addScoring l a) == Score a + sumQ (map Score l).
Proof.
  revert a. induction l as [|sc l IH]; intros a; simpl.
  - ring.
  - rewrite IH. simpl. ring.
Qed.

Definition fiveScores : list Scoring :=
  map (fun q => mkScoring 0 q 0 0 0 0 0 0 0) [0.2; 0.4; 0.6; 0.8; 1.0].

(** C3: the prior logged at connect for a TCP source with address [ip] is
    0.5 when fewer than five summaries are stored under [ip] (none at all
    included), whatever their scores, and otherwise the mean of the stored
    scores; five stored scores 0.2, 0.4, 0.6, 0.8, 1.0 give 0.6. *)
Theorem connect_prior_trust (store : Store) (ts : Z) (s : SessionData) (rd fc ip : string) :
  (exists p, snd (linkConnectCb store ts s rd fc (TCPAddr ip)) = Some p /\
     p == (let l := default [] (store !! ip) in
           if (length l <? 5)%nat then 0.5
           else sumQ (map Score l) / Q_of_nat (length l)))
  /\ (exists p, snd (linkConnectCb {[ip := fiveScores]} ts s rd fc (TCPAddr ip)) = Some p
        /\ p == 0.6).
Proof.
  split.
  - eexists. split; [reflexivity|]. unfold connectScore.
    destruct (store !! ip) as [l|]; simpl; [|reflexivity].
    destruct (length l <? 5)%nat; [reflexivity|].
    destruct l as [|sc l]; [reflexivity|].
    cbn [aggregateScoring Score]. rewrite fold_addScoring_Score.
    unfold zeroScoring; cbn [Score]. unfold Qdiv. ring.
  - eexists. split; [reflexivity|].
    unfold connectScore. rewrite lookup_singleton_eq. reflexivity.
Qed.

(** What one sweep pass leaves under a key that held [scoring]. *)
Definition sweepEntry (clock : string -> Z) (ip : string) (scoring : list Scoring)
    : option (list Scoring) :=
  if (100 <? length scoring)%nat then Some (drop (length scoring - 100) scoring)
  else match last scoring with
       | None => None
       | Some newest =>
         if (Timestamp newest + fiveDays <? clock ip)%Z then None else Some scoring
       end.

Definition nonEmptyHistories (store : Store) : Prop :=
  map_Forall (fun _ (l : list Scoring) => (0 < length l)%nat) store.

Lemma sweep_lookup (clock : string -> Z) (m0 : Store) :
  nonEmptyHistories m0 ->
  exists m', sweep clock m0 = Some m' /\ forall k, m' !! k = m0 !! k ≫= sweepEntry clock k.
Proof.
  intros Hne. unfold sweep.
  cut (nonEmptyHistories m0 -> m0 ⊆ m0 ->
       exists st, map_fold (sweepKey clock) (Some m0) m0 = Some st /\
       forall k, st !! k = match m0 !! k with
                           | Some l => sweepEntry clock k l
                           | None => m0 !! k end).
  { intros H. destruct (H Hne (reflexivity _)) as [st [Hst Hk]].
    exists st. split; [done|]. intros k. rewrite Hk. by destruct (m0 !! k). }
  apply (map_fold_weak_ind (fun r m => nonEmptyHistories m -> m ⊆ m0 ->
       exists st, r = Some st /\
       forall k, st !! k = match m !! k with
                           | Some l => sweepEntry clock k l
                           | None => m0 !! k end)).
  - intros _ _. exists m0. split; [done|]. intros k. by rewrite lookup_empty.
  - intros i x m r Hi IH Hall Hsub.
    unfold nonEmptyHistories in Hall. rewrite map_Forall_insert in Hall by done.
    destruct Hall as [Hx Hall].
    assert (Hm : m ⊆ m0).
    { transitivity (<[i:=x]> m); [by apply insert_subseteq|done]. }
    assert (H0 : m0 !! i = Some x).
    { eapply lookup_weaken; [apply lookup_insert_eq|done]. }
    destruct (IH Hall Hm) as [st [-> Hst]].
    unfold sweepKey. cbn [mbind option_bind].
    destruct (100 <? length x)%nat eqn:E.
    + eexists. split; [reflexivity|]. intros k.
      destruct (decide (k = i)) as [->|Hki].
      * rewrite !lookup_insert_eq. unfold sweepEntry. by rewrite E.
      * rewrite !lookup_insert_ne by congruence. apply Hst.
    + destruct (last x) as [newest|] eqn:El.
      2:{ apply last_None in El. subst x. simpl in Hx. lia. }
      destruct (Timestamp newest + fiveDays <? clock i)%Z eqn:Et.
      * eexists. split; [reflexivity|]. intros k.
        destruct (decide (k = i)) as [->|Hki].
        -- rewrite lookup_delete_eq, lookup_insert_eq. unfold sweepEntry.
           by rewrite E, El, Et.
        -- rewrite lookup_delete_ne, lookup_insert_ne by congruence. apply Hst.
      * eexists. split; [reflexivity|]. intros k.
        destruct (decide (k = i)) as [->|Hki].
        -- rewrite Hst, Hi, lookup_insert_eq, H0. unfold sweepEntry.
           by rewrite E, El, Et.
        -- rewrite lookup_insert_ne by congruence. apply Hst.
Qed.

(** Every store the program reaches holds non-empty sequences only, so the
    sweep never indexes an empty slice. *)
Lemma reachable_nonEmptyHistories (store : Store) :
  store_reachable store -> nonEmptyHistories store.
Proof.
  induction 1 as [|st k summary _ IH|st clock st' _ IH Hsw].
  - apply map_Forall_empty.
  - unfold recordSession. apply map_Forall_insert_2; [|done].
    rewrite length_app. simpl. lia.
  - destruct (sweep_lookup clock st IH) as [m' [Hm' Hk]].
    rewrite Hsw in Hm'. injection Hm' as <-.
    intros k l Hl. rewrite Hk in Hl.
    destruct (st !! k) as [l0|] eqn:E; simpl in Hl; [|discriminate].
    pose proof (IH k l0 E) as Hl0. simpl in Hl0.
    unfold sweepEntry in Hl.
    destruct (100 <? length l0)%nat eqn:E100.
    + injection Hl as <-. apply Nat.ltb_lt in E100. rewrite length_drop. lia.
    + destruct (last l0); [|discriminate].
      destruct (_ <? _)%Z; [discriminate|]. by injection Hl as <-.
Qed.

(** C4: on a store of non-empty sequences (every reachable store, by
    [reachable_nonEmptyHistories]) one sweep pass completes, and for every
    key holding [l]: if [l] has more than 100 entries the key keeps exactly
    its 100 most recent summaries in order (whatever their age); otherwise,
    if the newest summary's timestamp plus five days is before the clock
    read for that key, the key is gone. *)
Theorem sweep_pass (clock : string -> Z) (store : Store)
    (Hne : nonEmptyHistories store) :
  exists store', sweep clock store = Some store' /\
  forall k l, store !! k = Some l ->
    ((100 < length l)%nat ->
       exists recent older, store' !! k = Some recent /\ length recent = 100%nat
                            /\ l = older ++ recent)
    /\ ((length l <= 100)%nat -> forall newest, last l = Some newest ->
          (Timestamp newest + fiveDays < clock k)%Z -> store' !! k = None).
Proof.
  destruct (sweep_lookup clock store Hne) as [m' [Hm' Hk]].
  exists m'. split; [done|]. intros k l Hl. rewrite Hk, Hl. simpl.
  unfold sweepEntry. split.
  - intros Hlt. apply Nat.ltb_lt in Hlt as Hb. rewrite Hb.
    exists (drop (length l - 100) l), (take (length l - 100) l).
    split; [done|]. split.
    + rewrite length_drop. lia.
    + by rewrite take_drop.
  - intros Hle newest Hlast Hts.
    assert (Hb : (100 <? length l)%nat = false) by (apply Nat.ltb_ge; lia).
    rewrite Hb, Hlast. apply Z.ltb_lt in Hts. by rewrite Hts.
Qed.




(** Every handler keeps a skipped session skipped and leaves the store as
    it was. *)
Lemma handle_skipped (now : Z) (ev : Event) (s s' : SessionData) (store store' : Store) :
  skip s = true -> handle now ev (s, store) = Some (s', store') ->
  skip s' = true /\ store' = store.
Proof.
  intros Hs H. unfold handle in H.
  destruct ev; rewrite ?Hs in H; injection H as <- <-; [|done..].
  destruct src; simpl; auto.
Qed.

Lemma run_skipped (evs : list (Z * Event)) (s s' : SessionData) (store store' : Store) :
  skip s = true -> run evs (s, store) = Some (s', store') -> store' = store.
Proof.
  revert s store. induction evs as [|[t ev] evs IH]; intros s store Hs H.
  - simpl in H. by injection H as <- <-.
  - change (handle t ev (s, store) ≫= run evs = Some (s', store')) in H.
    destruct (handle t ev (s, store)) as [[s1 store1]|] eqn:E; [|discriminate].
    simpl in H.
    destruct (handle_skipped t ev s s1 store store1 Hs E) as [Hs1 ->].
    eapply IH; eauto.
Qed.

(** C9: a connect from a source that is not a TCP address marks the
    session skip and logs no score; from then on every handler other than
    connect returns at once, leaving the session and the store unchanged,
    and no sequence of events (a repeated connect included) writes a
    summary into the store. *)
Theorem non_tcp_session_skipped (store : Store) (ts : Z) (s : SessionData)
    (rd fc : string) (src : Addr) (Hsrc : forall ip, src <> TCPAddr ip) :
  let s1 := fst (linkConnectCb store ts s rd fc src) in
  skip s1 = true /\ snd (linkConnectCb store ts s rd fc src) = None
  /\ (forall now ev st, isConnect ev = false -> handle now ev (s1, st) = Some (s1, st))
  /\ (forall evs s' st st', run evs (s1, st) = Some (s', st') -> st' = st).
Proof.
  destruct src as [ip|net]; [by destruct (Hsrc ip)|].
  cbn zeta. assert (Hs : skip (fst (linkConnectCb store ts s rd fc (OtherAddr net))) = true)
    by reflexivity.
  split; [done|]. split; [done|]. split.
  - intros t [] st Hc; try discriminate; cbn [handle]; by rewrite Hs.
  - intros evs s' st st'. by apply run_skipped.
Qed.


Definition demoStore : Store :=
  {[ "192.0.2.1" := map (fun n => mkScoring (Z.of_nat n) 0.5 0 0 0 1 1 1 0) (seq 0 101);
     "198.51.100.7" := [mkScoring 0 0.9 0 1 0 1 1 1 0] ]}.

Lemma sweep_pass_witness :
  nonEmptyHistories demoStore /\
  exists store', sweep (fun _ => (6 * fiveDays)%Z) demoStore = Some store'.
Proof.
  assert (H : nonEmptyHistories demoStore).
  { apply (bool_decide_unpack _). vm_compute. exact I. }
  split; [exact H|].
  destruct (sweep_pass (fun _ => (6 * fiveDays)%Z) demoStore H) as [st [Hst _]].
  exists st. exact Hst.
Defined.

Lemma non_tcp_session_skipped_witness :
  skip (fst (linkConnectCb ∅ 0 zeroSession "<unknown>" "fail" (OtherAddr "unix"))) = true.
Proof.
  apply (non_tcp_session_skipped ∅ 0 zeroSession "<unknown>" "fail" (OtherAddr "unix")).
  intros ip. discriminate.
Defined.

End HistoricalFacts.

Module IncrementalFacts.
Import Incremental.

Lemma listed_factor_range (c : string) (f : Q) :
  degradationFactors !! c = Some f -> 0 < f /\ f <= 1.
Proof.
  intros H. apply elem_of_list_to_map_2 in H.
  repeat (apply elem_of_cons in H as [H|H]; [injection H as -> ->; split; lra|]).
  by apply elem_of_nil in H.
Qed.

Lemma factor_listed (c : string) (f : Q) :
  degradationFactors !! c = Some f -> factor c = f.
Proof. intros H. unfold factor. by rewrite H. Qed.

Lemma factor_unlisted (c : string) :
  degradationFactors !! c = None -> factor c = 0.
Proof. intros H. unfold factor. by rewrite H. Qed.

Lemma clamp_range (x : Q) : 0 <= clamp x 0 1 <= 1.
Proof.
  unfold clamp. destruct (Qlt_le_dec x 0); [lra|].
  destruct (Qlt_le_dec 1 x); lra.
Qed.

Lemma clamp_id (x : Q) : 0 <= x <= 1 -> clamp x 0 1 == x.
Proof.
  intros Hx. unfold clamp. destruct (Qlt_le_dec x 0); [lra|].
  destruct (Qlt_le_dec 1 x); lra.
Qed.

Lemma clamp_cases (x : Q) :
  (x < 0 /\ clamp x 0 1 = 0) \/ (1 < x /\ clamp x 0 1 = 1)
  \/ (0 <= x <= 1 /\ clamp x 0 1 = x).
Proof.
  unfold clamp. destruct (Qlt_le_dec x 0); [auto|].
  destruct (Qlt_le_dec 1 x); auto.
Qed.

Lemma penalize_reward_le (c : string) (f v : Q) :
  degradationFactors !! c = Some f -> 0 <= v <= 1 ->
  applyPenalty c (applyReward c v) <= v.
Proof.
  intros Hc Hv. pose proof (listed_factor_range c f Hc) as Hf.
  unfold applyPenalty, applyReward, baseReward, basePenalty.
  rewrite (factor_listed c f Hc).
  destruct (clamp_cases (v + 0.05 * f)) as [[H1 ->]|[[H1 ->]|[H1 ->]]];
  match goal with |- clamp ?y 0 1 <= _ =>
    destruct (clamp_cases y) as [[H2 ->]|[[H2 ->]|[H2 ->]]] end; lra.
Qed.

(** C7 (as the code has it): for a listed class and [v] in [0,1], reward
    and penalty stay in [0,1]; the reward never lowers [v] and raises it
    unless [v] is 1; the penalty never raises [v] and lowers it unless [v]
    is 0; and a reward followed by a penalty never ends above [v]. *)
Theorem reward_penalty_direction (c : string) (f v : Q)
    (Hc : degradationFactors !! c = Some f) (Hv : 0 <= v <= 1) :
  0 <= applyReward c v <= 1 /\ 0 <= applyPenalty c v <= 1
  /\ v <= applyReward c v /\ (v < 1 -> v < applyReward c v)
  /\ applyPenalty c v <= v /\ (0 < v -> applyPenalty c v < v)
  /\ applyPenalty c (applyReward c v) <= v.
Proof.
  pose proof (listed_factor_range c f Hc) as Hf.
  split; [apply clamp_range|]. split; [apply clamp_range|].
  split; [|split; [|split; [|split]]]; try (apply (penalize_reward_le c f); done);
  unfold applyPenalty, applyReward, baseReward, basePenalty;
  rewrite (factor_listed c f Hc);
  match goal with
  | |- context [clamp ?y 0 1] =>
    destruct (clamp_cases y) as [[H2 ->]|[[H2 ->]|[H2 ->]]]
  end; try intros; lra.
Qed.

(** C7, counterexample: no listed class and [v] in [0,1] give
    [penalize(c, reward(c, v)) > v]. *)
Lemma no_penalize_after_reward_above :
  ~ exists c f v, degradationFactors !! c = Some f /\ 0 <= v <= 1
                  /\ v < applyPenalty c (applyReward c v).
Proof.
  intros (c & f & v & Hc & Hv & Hlt).
  pose proof (penalize_reward_le c f v Hc Hv). lra.
Qed.

Lemma reward_penalty_direction_witness :
  degradationFactors !! "rDNS" = Some 0.8 /\ 0 <= 1#2 <= 1 /\
  applyPenalty "rDNS" (applyReward "rDNS" (1#2)) <= 1#2.
Proof.
  assert (Hc : degradationFactors !! "rDNS" = Some 0.8) by reflexivity.
  assert (Hv : 0 <= 1#2 <= 1) by (split; vm_compute; discriminate).
  split; [exact Hc|]. split; [exact Hv|].
  apply (reward_penalty_direction "rDNS" 0.8 (1#2) Hc Hv).
Defined.

(** C5 (as the code has it): for a TCP source, connect sets the session's
    overall trust to [(0.5 * I + 0.3 * R) / 2], where [I] and [R] are the IP
    and reverse-DNS trust values read from the tables (0.5 when unseen);
    the session's IP and reverse-DNS trust are those values rewarded when
    reverse DNS is present and penalized otherwise (class [rDNS]), then
    rewarded when the session's forward-confirmation flag is set and
    penalized otherwise (class [FCrDNS] for the IP, [rDNS] for the name). *)
Theorem connect_trust (ToLower : string -> string) (r : Reputation) (ts : Z)
    (s : SessionData) (rd fc ip' : string) :
  exists s', linkConnectCb ToLower r ts s rd fc (TCPAddr ip') = Some s' /\
  let I := IPAddress r ip' in
  let R := ReverseDNS r (ToLower rd) in
  overallReputation s' = (I * 0.5 + R * 0.3) / 2 /\
  hasReverseDNS s' = negb (String.eqb rd "<unknown>") /\
  let I1 := if hasReverseDNS s' then applyReward "rDNS" I else applyPenalty "rDNS" I in
  let R1 := if hasReverseDNS s' then applyReward "rDNS" R else applyPenalty "rDNS" R in
  ipReputation s' =
    (if hasFcReverseDNS s' then applyReward "FCrDNS" I1 else applyPenalty "FCrDNS" I1) /\
  rdnsReputation s' =
    (if hasFcReverseDNS s' then applyReward "rDNS" R1 else applyPenalty "rDNS" R1).
Proof.
  unfold linkConnectCb.
  destruct (String.eqb rd "<unknown>"), (String.eqb fc "ok"); simpl;
    eexists; (split; [reflexivity|]); repeat split.
Qed.

(** C5, counterexample: with no history, a resolved reverse-DNS name and
    [fcrdns = "ok"], the overall trust set at connect is 0.2, the halved
    blend of the unadjusted trusts 0.5 and 0.5; it is neither the blend
    [0.5 * 0.54 + 0.3 * 0.46] of the adjusted trusts the handler stores nor
    half of it. *)
Lemma connect_overall_not_adjusted_blend :
  exists s', linkConnectCb (fun name => name) NewReputation 0 zeroSession
               "mx.example.org" "ok" (TCPAddr "192.0.2.1") = Some s'
  /\ ipReputation s' == 0.54 /\ rdnsReputation s' == 0.46
  /\ overallReputation s' == 0.2
  /\ ~ (overallReputation s' == ipReputation s' * 0.5 + rdnsReputation s' * 0.3)
  /\ ~ (overallReputation s' == (ipReputation s' * 0.5 + rdnsReputation s' * 0.3) / 2).
Proof.
  eexists. split; [reflexivity|].
  repeat split; try reflexivity; vm_compute; discriminate.
Qed.

(** C6: at disconnect, Feedback sets the session's IP, reverse-DNS and HELO
    trust to [clamp((current + overall * w) / 2, 0, 1)] with [w] = 0.5, 0.3
    and 0.2, and the tables become the old tables with exactly these three
    values written under the session's IP address, reverse-DNS name and
    HELO name. *)
Theorem disconnect_feedback (r : Reputation) (ts : Z) (s : SessionData) :
  let '(r', s') := linkDisconnectCb r ts s in
  ipReputation s' = clamp ((ipReputation s + overallReputation s * 0.5) / 2) 0 1 /\
  rdnsReputation s' = clamp ((rdnsReputation s + overallReputation s * 0.3) / 2) 0 1 /\
  heloReputation s' = clamp ((heloReputation s + overallReputation s * 0.2) / 2) 0 1 /\
  ipAddress r' = <[ip s := ipReputation s']> (ipAddress r) /\
  rdns r' = <[rDNS s := rdnsReputation s']> (rdns r) /\
  hostname r' = <[heloname s := heloReputation s']> (hostname r).
Proof. repeat split. Qed.

(** C10: a class missing from the factor table (["FCrDNS"] among them)
    leaves every [v] in [0,1] unchanged under reward and penalty, so the
    forward-confirmation step applied to the IP trust at connect does not
    change it. *)
Theorem unlisted_class_noop (c : string) (v : Q)
    (Hc : degradationFactors !! c = None) (Hv : 0 <= v <= 1) :
  applyReward c v == v /\ applyPenalty c v == v
  /\ degradationFactors !! "FCrDNS" = None
  /\ forall (ToLower : string -> string) (r : Reputation) (ts : Z) (s s' : SessionData)
            (rd fc ip' : string),
       linkConnectCb ToLower r ts s rd fc (TCPAddr ip') = Some s' ->
       ipReputation s' ==
         (if String.eqb rd "<unknown>" then applyPenalty "rDNS" (IPAddress r ip')
          else applyReward "rDNS" (IPAddress r ip')).
Proof.
  assert (Hnoop : forall c' x, degradationFactors !! c' = None -> 0 <= x <= 1 ->
                  applyReward c' x == x /\ applyPenalty c' x == x).
  { intros c' x Hc' Hx. unfold applyReward, applyPenalty.
    rewrite (factor_unlisted c' Hc').
    split; rewrite clamp_id; lra. }
  assert (HF : degradationFactors !! "FCrDNS" = None) by reflexivity.
  split; [apply Hnoop; done|]. split; [apply Hnoop; done|]. split; [done|].
  intros ToLower r ts s s' rd fc ip' H. unfold linkConnectCb in H.
  destruct (String.eqb rd "<unknown>"), (String.eqb fc "ok"); simpl in H;
  injection H as <-; simpl;
  match goal with
  | |- context [?op "FCrDNS" ?x] => apply (Hnoop "FCrDNS" x HF), clamp_range
  end.
Qed.

Lemma unlisted_class_noop_witness :
  degradationFactors !! "FCrDNS" = None /\ 0 <= 1#2 <= 1 /\
  applyReward "FCrDNS" (1#2) == 1#2.
Proof.
  assert (Hc : degradationFactors !! "FCrDNS" = None) by reflexivity.
  assert (Hv : 0 <= 1#2 <= 1) by (split; vm_compute; discriminate).
  split; [exact Hc|]. split; [exact Hv|].
  apply (unlisted_class_noop "FCrDNS" (1#2) Hc Hv).
Defined.

End IncrementalFacts.

Module HistoricalExtras.
Import Historical HistoricalFacts.

Lemma clamp01_range (x : Q) : 0 <= Qmax 0 (Qmin 1 x) <= 1.
Proof.
  destruct (Q.min_spec 1 x) as [[H1 H2]|[H1 H2]];
  destruct (Q.max_spec 0 (Qmin 1 x)) as [[H3 H4]|[H3 H4]]; lra.
Qed.

Lemma clamp01_mono (x y : Q) : x <= y -> Qmax 0 (Qmin 1 x) <= Qmax 0 (Qmin 1 y).
Proof.
  intros H.
  destruct (Q.min_spec 1 x) as [[H1 H2]|[H1 H2]];
  destruct (Q.max_spec 0 (Qmin 1 x)) as [[H3 H4]|[H3 H4]];
  destruct (Q.min_spec 1 y) as [[H5 H6]|[H5 H6]];
  destruct (Q.max_spec 0 (Qmin 1 y)) as [[H7 H8]|[H7 H8]]; lra.
Qed.

Lemma Q_of_nat_S (n : nat) : Q_of_nat (S n) == Q_of_nat n + 1.
Proof.
  unfold Q_of_nat. rewrite Nat2Z.inj_succ, <- Z.add_1_r, inject_Z_plus.
  reflexivity.
Qed.

Lemma Q_of_nat_nonneg (n : nat) : 0 <= Q_of_nat n.
Proof. unfold Q_of_nat, Qle. simpl. lia. Qed.

Lemma Q_of_nat_pos (n : nat) : (0 < n)%nat -> 0 < Q_of_nat n.
Proof. intros H. unfold Q_of_nat, Qlt. simpl. lia. Qed.

(** The unclamped sum of [scoreTransaction]. *)
Definition txBase (tx : Transaction) : Q :=
  (if mailFromOK tx then 0.4 else 0) + (if sawData tx then 0.3 else 0)
  + (if committed tx then 0.3 else 0) + Q_of_nat (rcptToOK tx) * 0.1
  - Q_of_nat (rcptToTempfail tx + rcptToPermfail tx) * 0.2.

Lemma scoreTransaction_txBase (tx : Transaction) :
  scoreTransaction tx == Qmax 0 (Qmin 1 (txBase tx)).
Proof.
  unfold scoreTransaction. apply clamp01_compat. unfold txBase.
  rewrite Q_of_nat_add. unfold validSenderWeight, dataWeight, commitWeight,
    successfulRecipientWeight, failedRecipientPenalty.
  destruct (mailFromOK tx), (sawData tx), (committed tx); rewrite ?Q_of_nat_add; ring.
Qed.

(** Both scorers always land in [0,1]. *)
Theorem scores_in_unit_interval (tx : Transaction) (s : SessionData) :
  0 <= scoreTransaction tx <= 1 /\ 0 <= scoreSession s <= 1.
Proof. split; apply clamp01_range. Qed.

(** An accepted sender, a data phase, a commit and an accepted recipient
    never lower a transaction's score; a temp- or perm-failed recipient
    never raises it; a rollback leaves it as it was. *)
Theorem tx_updates_score_direction (tx : Transaction) (ts : Z) (result : string) :
  scoreTransaction tx <= scoreTransaction (txMail result tx)
  /\ scoreTransaction tx <= scoreTransaction (txData tx)
  /\ scoreTransaction tx <= scoreTransaction (txEnd ts true tx)
  /\ scoreTransaction (txEnd ts false tx) == scoreTransaction tx
  /\ scoreTransaction tx <= scoreTransaction (txRcpt "ok" tx)
  /\ scoreTransaction (txRcpt "tempfail" tx) <= scoreTransaction tx
  /\ scoreTransaction (txRcpt "permfail" tx) <= scoreTransaction tx.
Proof.
  rewrite !scoreTransaction_txBase.
  pose proof (Q_of_nat_S (rcptToOK tx)).
  pose proof (Q_of_nat_S (rcptToTempfail tx + rcptToPermfail tx)) as HT.
  assert (HP : Q_of_nat (rcptToTempfail tx + S (rcptToPermfail tx))
               == Q_of_nat (rcptToTempfail tx + rcptToPermfail tx) + 1).
  { rewrite Nat.add_succ_r. apply Q_of_nat_S. }
  repeat split; try (apply clamp01_mono); unfold txBase;
    cbn [txMail txData txEnd txRcpt mailFromOK sawData committed rcptToOK
         rcptToTempfail rcptToPermfail String.eqb Ascii.eqb Bool.eqb andb];
    try (destruct (String.eqb result "ok"));
    destruct (mailFromOK tx), (sawData tx), (committed tx); try lra;
    simpl Nat.add in *; lra.
Qed.

(** A recipient result other than "ok", "tempfail" and "permfail" leaves the
    transaction as it was. *)
Theorem txRcpt_unknown_result (result : string) (tx : Transaction)
    (Hok : result <> "ok") (Ht : result <> "tempfail") (Hp : result <> "permfail") :
  txRcpt result tx = tx.
Proof.
  apply String.eqb_neq in Hok, Ht, Hp.
  destruct tx. unfold txRcpt. simpl. rewrite Hok, Ht, Hp. reflexivity.
Qed.

Definition summaryStep : nat * nat * nat * nat -> Transaction -> nat * nat * nat * nat :=
  fun '(r, d, c, rb) tx =>
  let r := (r + (rcptToOK tx + rcptToTempfail tx + rcptToPermfail tx))%nat in
  let d := if sawData tx then S d else d in
  let '(c, rb) := if committed tx then (S c, rb) else (c, S rb) in
  (r, d, c, rb).

Lemma summaryStep_fold (txs : list Transaction) (r d c rb : nat) :
  fold_left summaryStep txs (r, d, c, rb) =
  ((r + sum_list_with (fun tx => rcptToOK tx + rcptToTempfail tx + rcptToPermfail tx) txs)%nat,
   (d + length (List.filter sawData txs))%nat,
   (c + length (List.filter committed txs))%nat,
   (rb + length (List.filter (fun tx => negb (committed tx)) txs))%nat).
Proof.
  revert r d c rb. induction txs as [|tx txs IH]; intros r d c rb; simpl.
  - repeat (apply pair_equal_spec; split); lia.
  - unfold summaryStep at 1.
    destruct (sawData tx), (committed tx); simpl; rewrite IH;
      repeat (apply pair_equal_spec; split); lia.
Qed.

Lemma filter_committed_split (txs : list Transaction) :
  (length (List.filter committed txs)
   + length (List.filter (fun tx => negb (committed tx)) txs))%nat = length txs.
Proof.
  induction txs as [|tx txs IH]; simpl; [done|].
  destruct (committed tx); simpl; lia.
Qed.

(** The summary written at disconnect is stamped with the disconnect clock,
    carries the session score and the session's authentication and reset
    counters, counts every recipient answer, one data phase per transaction
    that saw one, and counts each transaction exactly once, as a commit or
    (when it was not committed, also when it was left open) as a rollback. *)
Theorem summarizeSession_counts (now : Z) (s : SessionData) :
  let sc := summarizeSession now s in
  Timestamp sc = now /\ Score sc = scoreSession s
  /\ AuthFailures sc = authfail s /\ AuthSuccesses sc = authok s
  /\ Resets sc = nResets s
  /\ RcptCount sc = sum_list_with
       (fun tx => rcptToOK tx + rcptToTempfail tx + rcptToPermfail tx)%nat (transactions s)
  /\ DataCount sc = length (List.filter sawData (transactions s))
  /\ CommitCount sc = length (List.filter committed (transactions s))
  /\ (CommitCount sc + RollbackCount sc)%nat = length (transactions s).
Proof.
  unfold summarizeSession.
  change (fold_left _ (transactions s) (0, 0, 0, 0)%nat)
    with (fold_left summaryStep (transactions s) (0, 0, 0, 0)%nat).
  rewrite summaryStep_fold. simpl.
  pose proof (filter_committed_split (transactions s)).
  repeat split; lia.
Qed.

Lemma aggregateScoring_Score (l : list Scoring) :
  l <> [] ->
  Score (aggregateScoring l) = Score (fold_left addScoring l zeroScoring) / Q_of_nat (length l).
Proof. destruct l; [congruence|reflexivity]. Qed.

Lemma sumQ_Score_bounds (l : list Scoring) :
  Forall (fun sc => 0 <= Score sc <= 1) l ->
  0 <= sumQ (map Score l) <= Q_of_nat (length l).
Proof.
  induction l as [|sc l IH]; intros Hl.
  - unfold sumQ, Q_of_nat. simpl. unfold Qle. simpl. lia.
  - inversion Hl as [|? ? Hsc Hrest]; subst.
    specialize (IH Hrest).
    change (0 <= Score sc + sumQ (map Score l) <= Q_of_nat (S (length l))).
    rewrite Q_of_nat_S. lra.
Qed.

(** When every stored score lies in [0,1], so does the prior logged at
    connect. *)
Theorem connectScore_range (store : Store) (key : string)
    (Hstore : map_Forall (fun _ l => Forall (fun sc => 0 <= Score sc <= 1) l) store) :
  0 <= connectScore store key <= 1.
Proof.
  unfold connectScore.
  destruct (store !! key) as [l|] eqn:E; [|lra].
  destruct (length l <? 5)%nat eqn:E5; [lra|].
  apply Nat.ltb_ge in E5.
  assert (Hne : l <> []) by (intros ->; simpl in E5; lia).
  rewrite aggregateScoring_Score by done.
  rewrite fold_addScoring_Score.
  pose proof (sumQ_Score_bounds l (Hstore key l E)) as [H0 H1].
  pose proof (Q_of_nat_pos (length l) ltac:(lia)) as Hpos.
  simpl Score.
  split.
  - apply Qle_shift_div_l; [done|]. lra.
  - apply Qle_shift_div_r; [done|]. lra.
Qed.

(** Disconnecting a session that is not skipped stamps the disconnect time
    and appends exactly one summary, of the session's score, to the sequence
    stored under the session's address, creating it if absent; the other
    addresses keep their sequences. *)
Theorem disconnect_appends_summary (now ts : Z) (s : SessionData) (store : Store)
    (Hs : skip s = false) :
  exists s' store',
    handle now (LinkDisconnect ts) (s, store) = Some (s', store')
    /\ disconnectTime s' = ts
    /\ store' !! addr s = Some (default [] (store !! addr s) ++ [summarizeSession now s'])
    /\ Score (summarizeSession now s') = scoreSession s
    /\ (forall k, k <> addr s -> store' !! k = store !! k).
Proof.
  exists (setDisconnectTime ts s),
    (recordSession store (addr s) (summarizeSession now (setDisconnectTime ts s))).
  split; [|split; [reflexivity|split; [|split]]].
  - unfold handle. cbv beta iota zeta. rewrite Hs. reflexivity.
  - unfold recordSession. rewrite lookup_insert_eq. reflexivity.
  - unfold summarizeSession. destruct (fold_left _ _ _) as [[[? ?] ?] ?].
    reflexivity.
  - intros k Hk. unfold recordSession. rewrite lookup_insert_ne by congruence.
    reflexivity.
Qed.

(** A sweep over sequences that are all non-empty succeeds, never adds an
    address, keeps under each address at most the last 100 summaries of the
    original sequence, and keeps as it was every sequence of at most 100
    summaries whose newest one is at most five days old. *)
Theorem sweep_bounds (clock : string -> Z) (store : Store)
    (Hne : nonEmptyHistories store) :
  exists store', sweep clock store = Some store'
  /\ (forall k l', store' !! k = Some l' ->
        exists l older, store !! k = Some l /\ l = older ++ l' /\ (length l' <= 100)%nat)
  /\ (forall k l newest, store !! k = Some l -> (length l <= 100)%nat ->
        last l = Some newest -> (clock k <= Timestamp newest + fiveDays)%Z ->
        store' !! k = Some l).
Proof.
  destruct (sweep_lookup clock store Hne) as [m' [Hs Hk]].
  exists m'. split; [done|split].
  - intros k l' H. rewrite Hk in H.
    destruct (store !! k) as [l|]; cbv [mbind option_bind] in H; [|discriminate].
    unfold sweepEntry in H.
    destruct (100 <? length l)%nat eqn:E.
    + injection H as <-. apply Nat.ltb_lt in E.
      exists l, (take (length l - 100) l). split; [done|split].
      * symmetry. apply take_drop.
      * rewrite length_drop. lia.
    + apply Nat.ltb_ge in E.
      destruct (last l); [|discriminate].
      destruct (_ <? _)%Z; [discriminate|].
      injection H as <-. exists l, []. done.
  - intros k l newest H Hle Hl Hc. rewrite Hk, H. cbv [mbind option_bind].
    unfold sweepEntry.
    apply Nat.ltb_ge in Hle. rewrite Hle, Hl.
    destruct (Z.ltb_spec (Timestamp newest + fiveDays) (clock k)); [lia|done].
Qed.

(** On every store the program can reach, a sweep succeeds and leaves a
    store the program can reach, so sweeps can be repeated forever without
    a panic. *)
Theorem sweep_reachable_total (clock : string -> Z) (store : Store)
    (Hr : store_reachable store) :
  exists store', sweep clock store = Some store' /\ store_reachable store'.
Proof.
  destruct (sweep_lookup clock store (reachable_nonEmptyHistories store Hr))
    as [m' [Hs _]].
  exists m'. split; [done|]. eapply reach_sweep; eauto.
Qed.

Definition isBegin (ev : Event) : bool :=
  match ev with TxBegin _ => true | _ => false end.

Lemma updateLastTx_shape (f : Transaction -> Transaction) (s s' : SessionData) :
  updateLastTx f s = Some s' ->
  skip s' = skip s
  /\ length (transactions s') = length (transactions s)
  /\ (forall i, (S i < length (transactions s))%nat ->
        transactions s' !! i = transactions s !! i).
Proof.
  unfold updateLastTx. destruct (rev (transactions s)) as [|tx older] eqn:E;
    [discriminate|].
  intros [= <-].
  assert (Ht : transactions s = rev older ++ [tx]).
  { rewrite <- (rev_involutive (transactions s)), E. reflexivity. }
  simpl. rewrite Ht, !length_app. simpl.
  split; [done|split; [done|]].
  intros i Hi. rewrite !lookup_app_l by lia. reflexivity.
Qed.

(** An event other than a connect keeps the session's skip flag and touches
    the stored summaries only on a disconnect. A transaction begin on a
    session that is not skipped appends one new transaction after the ones
    it had, which it keeps; every other such event keeps the number of
    transactions, and no such event changes any transaction but the last
    one. *)
Theorem handle_transactions (now : Z) (ev : Event) (s s' : SessionData)
    (store store' : Store)
    (Hc : isConnect ev = false) (H : handle now ev (s, store) = Some (s', store')) :
  skip s' = skip s
  /\ (match ev with LinkDisconnect _ => True | _ => store' = store end)
  /\ length (transactions s') =
       (length (transactions s) + (if isBegin ev && negb (skip s) then 1 else 0))%nat
  /\ (forall i, (S i < length (transactions s))%nat ->
        transactions s' !! i = transactions s !! i)
  /\ (forall ts, ev = TxBegin ts -> skip s = false ->
        transactions s' = transactions s ++ [newTransaction ts]).
Proof.
  destruct ev; cbn [isConnect] in Hc; try discriminate;
    unfold handle in H; cbv beta iota zeta in H;
    destruct (skip s) eqn:Hs; cbv beta iota zeta in H;
    try (injection H as <- <-; cbn [isBegin andb negb];
         repeat split; try done; try lia; intros ? ? ?; congruence);
    try (destruct (updateLastTx _ s) as [s1|] eqn:E;
         cbv [mbind option_bind] in H; [|discriminate];
         injection H as <- <-;
         destruct (updateLastTx_shape _ _ _ E) as [Hsk [Hl Hi]];
         cbn [isBegin andb negb]; rewrite Hsk, Hs, Hl;
         repeat split; try done; try lia; intros ? ? ?; congruence).
  (* transaction begin *)
  injection H as <- <-. cbn [isBegin andb negb]. simpl. rewrite length_app. simpl.
  repeat split; try done.
  all: try (intros i Hi; rewrite lookup_app_l by lia; reflexivity).
  all: intros ts' [= <-] _; reflexivity.
Qed.

Lemma txRcpt_unknown_result_witness :
  "accepted" <> "ok" /\ "accepted" <> "tempfail" /\ "accepted" <> "permfail" /\
  txRcpt "accepted" (newTransaction 7) = newTransaction 7.
Proof.
  assert (H1 : "accepted" <> "ok") by discriminate.
  assert (H2 : "accepted" <> "tempfail") by discriminate.
  assert (H3 : "accepted" <> "permfail") by discriminate.
  split; [exact H1|split; [exact H2|split; [exact H3|]]].
  apply (txRcpt_unknown_result "accepted" (newTransaction 7) H1 H2 H3).
Defined.

Lemma connectScore_range_witness :
  map_Forall (fun _ l => Forall (fun sc => 0 <= Score sc <= 1) l)
    ({["192.0.2.1" := fiveScores]} : Store) /\
  0 <= connectScore {["192.0.2.1" := fiveScores]} "192.0.2.1" <= 1.
Proof.
  assert (H : map_Forall (fun _ l => Forall (fun sc => 0 <= Score sc <= 1) l)
                ({["192.0.2.1" := fiveScores]} : Store)).
  { apply map_Forall_singleton. unfold fiveScores. simpl.
    repeat constructor; vm_compute; discriminate. }
  split; [exact H|].
  apply (connectScore_range {["192.0.2.1" := fiveScores]} "192.0.2.1" H).
Defined.

Lemma disconnect_appends_summary_witness :
  skip zeroSession = false /\
  exists s' store',
    handle 10 (LinkDisconnect 9) (zeroSession, ∅) = Some (s', store')
    /\ disconnectTime s' = 9%Z
    /\ store' !! addr zeroSession =
         Some (default [] ((∅ : Store) !! addr zeroSession) ++ [summarizeSession 10 s'])
    /\ Score (summarizeSession 10 s') = scoreSession zeroSession
    /\ (forall k, k <> addr zeroSession -> store' !! k = (∅ : Store) !! k).
Proof.
  assert (Hs : skip zeroSession = false) by reflexivity.
  split; [exact Hs|].
  apply (disconnect_appends_summary 10 9 zeroSession ∅ Hs).
Defined.

Lemma sweep_bounds_witness :
  nonEmptyHistories demoStore /\
  exists store', sweep (fun _ => 0%Z) demoStore = Some store'
  /\ (forall k l', store' !! k = Some l' ->
        exists l older, demoStore !! k = Some l /\ l = older ++ l' /\ (length l' <= 100)%nat)
  /\ (forall k l newest, demoStore !! k = Some l -> (length l <= 100)%nat ->
        last l = Some newest -> (0 <= Timestamp newest + fiveDays)%Z ->
        store' !! k = Some l).
Proof.
  assert (H : nonEmptyHistories demoStore).
  { apply (bool_decide_unpack _). vm_compute. exact I. }
  split; [exact H|].
  apply (sweep_bounds (fun _ => 0%Z) demoStore H).
Defined.

Definition reachedStore : Store :=
  recordSession
    (recordSession
       (recordSession ∅ "192.0.2.1" (mkScoring 0 0.4 0 1 0 2 1 1 0))
       "192.0.2.1" (mkScoring 1 0.6 0 0 1 1 1 0 1))
    "198.51.100.7" (mkScoring (3 * fiveDays) 0.9 0 1 0 1 1 1 0).

Lemma sweep_reachable_total_witness :
  store_reachable reachedStore /\
  exists store', sweep (fun _ => (2 * fiveDays)%Z) reachedStore = Some store'
  /\ store_reachable store'.
Proof.
  assert (H : store_reachable reachedStore).
  { unfold reachedStore. apply reach_record, reach_record, reach_record, reach_empty. }
  split; [exact H|].
  apply (sweep_reachable_total (fun _ => (2 * fiveDays)%Z) reachedStore H).
Defined.

Lemma handle_transactions_witness :
  let s' := setTransactions (transactions zeroSession ++ [newTransaction 5]) zeroSession in
  isConnect (TxBegin 5) = false /\
  handle 6 (TxBegin 5) (zeroSession, ∅) = Some (s', ∅) /\
  length (transactions s') = 1%nat.
Proof.
  intros s'.
  assert (Hc : isConnect (TxBegin 5) = false) by reflexivity.
  assert (H : handle 6 (TxBegin 5) (zeroSession, ∅) = Some (s', ∅)) by reflexivity.
  split; [exact Hc|split; [exact H|]].
  destruct (handle_transactions 6 (TxBegin 5) zeroSession s' ∅ ∅ Hc H)
    as [_ [_ [Hl _]]].
  rewrite Hl. reflexivity.
Defined.

End HistoricalExtras.

Module IncrementalExtras.
Import Incremental IncrementalFacts.

Definition tablesInRange (r : Reputation) : Prop :=
  map_Forall (fun _ v => 0 <= v <= 1) (ipAddress r)
  /\ map_Forall (fun _ v => 0 <= v <= 1) (rdns r)
  /\ map_Forall (fun _ v => 0 <= v <= 1) (hostname r).

Definition sessionInRange (s : SessionData) : Prop :=
  0 <= overallReputation s <= 1 /\ 0 <= ipReputation s <= 1
  /\ 0 <= rdnsReputation s <= 1 /\ 0 <= heloReputation s <= 1.

Lemma factor_nonneg (c : string) : 0 <= factor c.
Proof.
  destruct (degradationFactors !! c) as [f|] eqn:E.
  - rewrite (factor_listed c f E). apply listed_factor_range in E. lra.
  - rewrite (factor_unlisted c E). lra.
Qed.

Lemma applyReward_range (c : string) (v : Q) : 0 <= applyReward c v <= 1.
Proof. apply clamp_range. Qed.

Lemma applyPenalty_range (c : string) (v : Q) : 0 <= applyPenalty c v <= 1.
Proof. apply clamp_range. Qed.

Lemma applyReward_ge (c : string) (v : Q) : 0 <= v <= 1 -> v <= applyReward c v.
Proof.
  intros Hv. pose proof (factor_nonneg c).
  unfold applyReward, baseReward.
  destruct (clamp_cases (v + 0.05 * factor c)) as [[H1 ->]|[[H1 ->]|[H1 ->]]]; lra.
Qed.

Lemma applyPenalty_le (c : string) (v : Q) : 0 <= v <= 1 -> applyPenalty c v <= v.
Proof.
  intros Hv. pose proof (factor_nonneg c).
  unfold applyPenalty, basePenalty.
  destruct (clamp_cases (v - 0.1 * factor c)) as [[H1 ->]|[[H1 ->]|[H1 ->]]]; lra.
Qed.

Lemma lookup_default_range (m : gmap string Q) (k : string) :
  map_Forall (fun _ v => 0 <= v <= 1) m ->
  0 <= match m !! k with Some score => score | None => 0.5 end <= 1.
Proof.
  intros Hm. destruct (m !! k) as [v|] eqn:E; [exact (Hm k v E)|lra].
Qed.

Lemma IPAddress_range (r : Reputation) (k : string) :
  tablesInRange r -> 0 <= IPAddress r k <= 1.
Proof. intros [H _]. apply lookup_default_range, H. Qed.

Lemma ReverseDNS_range (r : Reputation) (k : string) :
  tablesInRange r -> 0 <= ReverseDNS r k <= 1.
Proof. intros [_ [H _]]. apply lookup_default_range, H. Qed.

Lemma Hostname_range (r : Reputation) (k : string) :
  tablesInRange r -> 0 <= Hostname r k <= 1.
Proof. intros [_ [_ H]]. apply lookup_default_range, H. Qed.

Lemma half_eq (x : Q) : x / 2 == x * (1#2).
Proof. reflexivity. Qed.

Lemma third_eq (x : Q) : x / 3 == x * (1#3).
Proof. reflexivity. Qed.

Lemma clamp_le (x b : Q) : 0 <= x <= b -> b <= 1 -> 0 <= clamp x 0 1 <= b.
Proof.
  intros Hx Hb. destruct (clamp_cases x) as [[H1 ->]|[[H1 ->]|[H1 ->]]]; lra.
Qed.

(** After the disconnect feedback, looking up the session's address,
    reverse-DNS name and HELO name in the shared tables returns the
    session's new trusts; every other entry reads as before. *)
Theorem feedback_lookup_roundtrip (r : Reputation) (ts : Z) (s : SessionData) :
  let '(r', s') := linkDisconnectCb r ts s in
  IPAddress r' (ip s) = ipReputation s'
  /\ ReverseDNS r' (rDNS s) = rdnsReputation s'
  /\ Hostname r' (heloname s) = heloReputation s'
  /\ (forall k, k <> ip s -> IPAddress r' k = IPAddress r k)
  /\ (forall k, k <> rDNS s -> ReverseDNS r' k = ReverseDNS r k)
  /\ (forall k, k <> heloname s -> Hostname r' k = Hostname r k).
Proof.
  unfold linkDisconnectCb, Feedback, IPAddress, ReverseDNS, Hostname. simpl.
  rewrite !lookup_insert_eq.
  repeat split; intros k Hk; rewrite lookup_insert_ne by congruence; reflexivity.
Qed.

(** When the trusts going into the disconnect feedback lie in [0,1], the
    clamp does not bite and the new trusts are at most 0.75 for the
    address, 0.65 for the reverse-DNS name and 0.6 for the HELO name:
    a single session, however good, never leaves a resource above these
    bounds. The tables stay within [0,1] whatever the session holds. *)
Theorem feedback_bounds (r : Reputation) (ts : Z) (s : SessionData) :
  let '(r', s') := linkDisconnectCb r ts s in
  (tablesInRange r -> tablesInRange r')
  /\ (sessionInRange s ->
      sessionInRange s'
      /\ ipReputation s' <= 3#4 /\ rdnsReputation s' <= 13#20
      /\ heloReputation s' <= 3#5).
Proof.
  unfold linkDisconnectCb, Feedback, ipWeight, rdnsWeight, helonameWeight. simpl.
  split.
  - intros [Hi [Hr Hh]]. split; [|split]; simpl;
      apply map_Forall_insert_2; try done; apply clamp_range.
  - intros [Ho [Hi [Hr Hh]]]. unfold sessionInRange. simpl.
    assert (A : 0 <= (ipReputation s + overallReputation s * 0.5) / 2 <= 3#4)
      by (rewrite half_eq; lra).
    assert (B : 0 <= (rdnsReputation s + overallReputation s * 0.3) / 2 <= 13#20)
      by (rewrite half_eq; lra).
    assert (C : 0 <= (heloReputation s + overallReputation s * 0.2) / 2 <= 3#5)
      by (rewrite half_eq; lra).
    apply clamp_le in A; [|lra]. apply clamp_le in B; [|lra]. apply clamp_le in C; [|lra].
    repeat split; lra.
Qed.

Lemma connect_ranges_aux (ToLower : string -> string) (r : Reputation) (ts : Z)
    (s s' : SessionData) (rd fc : string) (src : Addr) :
  tablesInRange r -> linkConnectCb ToLower r ts s rd fc src = Some s' ->
  0 <= overallReputation s' <= 2#5 /\ 0 <= ipReputation s' <= 1
  /\ 0 <= rdnsReputation s' <= 1 /\ heloReputation s' = heloReputation s.
Proof.
  intros Hr H. destruct src as [ip'|]; [|discriminate].
  unfold linkConnectCb in H.
  pose proof (IPAddress_range r ip' Hr). pose proof (ReverseDNS_range r (ToLower rd) Hr).
  assert (Ho : 0 <= (IPAddress r ip' * ipWeight + ReverseDNS r (ToLower rd) * rdnsWeight) / 2
               <= 2#5) by (rewrite half_eq; unfold ipWeight, rdnsWeight; lra).
  destruct (String.eqb rd "<unknown>"), (String.eqb fc "ok");
    cbv beta iota zeta delta [negb] in H; injection H as <-; cbn [overallReputation ipReputation rdnsReputation heloReputation failedMail failedRcpt txMailFrom txRcptTo setConnect setIdentify setActivity];
    (split; [exact Ho|]); (split; [|split; [|reflexivity]]);
    unfold applyReward, applyPenalty; apply clamp_range.
Qed.

Lemma identify_ranges_aux (ToLower : string -> string) (r : Reputation) (ts : Z)
    (s : SessionData) (method h : string) :
  tablesInRange r ->
  let s' := linkIdentifyCb ToLower r ts s method h in
  0 <= overallReputation s' <= 1#3 /\ 0 <= heloReputation s' <= 1
  /\ ipReputation s' = ipReputation s /\ rdnsReputation s' = rdnsReputation s
  /\ (hasReverseDNS s = false -> heloReputation s' = Hostname r (ToLower h)).
Proof.
  intros Hr s'. subst s'. unfold linkIdentifyCb.
  pose proof (IPAddress_range r (ip s) Hr). pose proof (ReverseDNS_range r (rDNS s) Hr).
  pose proof (Hostname_range r (ToLower h) Hr).
  destruct (hasReverseDNS s) eqn:Hrd; [destruct (String.eqb (ToLower h) (rDNS s))|];
    cbv beta iota zeta delta [negb]; cbn [overallReputation ipReputation rdnsReputation heloReputation failedMail failedRcpt txMailFrom txRcptTo setConnect setIdentify setActivity]; rewrite third_eq;
    unfold ipWeight, rdnsWeight, helonameWeight.
  - pose proof (applyReward_range "heloname" (IPAddress r (ip s))).
    pose proof (applyReward_range "heloname" (ReverseDNS r (rDNS s))).
    pose proof (applyReward_range "heloname" (Hostname r (ToLower h))).
    repeat split; try lra; discriminate.
  - pose proof (applyPenalty_range "heloname" (IPAddress r (ip s))).
    pose proof (applyPenalty_range "heloname" (ReverseDNS r (rDNS s))).
    pose proof (applyPenalty_range "heloname" (Hostname r (ToLower h))).
    repeat split; try lra; discriminate.
  - repeat split; try lra; intros _; reflexivity.
Qed.

(** For a TCP source and tables whose trusts lie in [0,1], connect sets
    an overall trust within [0, 0.4] and address and reverse-DNS trusts
    within [0,1], and leaves the HELO trust as it was. *)
Theorem connect_ranges (ToLower : string -> string) (r : Reputation) (ts : Z)
    (s s' : SessionData) (rd fc : string) (src : Addr)
    (Hr : tablesInRange r) (H : linkConnectCb ToLower r ts s rd fc src = Some s') :
  0 <= overallReputation s' <= 2#5 /\ 0 <= ipReputation s' <= 1
  /\ 0 <= rdnsReputation s' <= 1 /\ heloReputation s' = heloReputation s.
Proof. exact (connect_ranges_aux ToLower r ts s s' rd fc src Hr H). Qed.

(** With tables whose trusts lie in [0,1], HELO/EHLO replaces the overall
    trust by a value within [0, 1/3], sets a HELO trust in [0,1] and keeps
    the address and reverse-DNS trusts; without a reverse-DNS name the HELO
    trust is the stored one, unadjusted. The new overall trust depends on
    the session only through its address, its reverse-DNS name and whether
    it has one: two sessions that agree on these get the same overall
    trust, whatever their previous overall trusts, so the sender and
    recipient adjustments made so far are dropped. *)
Theorem identify_ranges (ToLower : string -> string) (r : Reputation) (ts : Z)
    (s : SessionData) (method h : string) (Hr : tablesInRange r) :
  let s' := linkIdentifyCb ToLower r ts s method h in
  (0 <= overallReputation s' <= 1#3 /\ 0 <= heloReputation s' <= 1
   /\ ipReputation s' = ipReputation s /\ rdnsReputation s' = rdnsReputation s
   /\ (hasReverseDNS s = false -> heloReputation s' = Hostname r (ToLower h)))
  /\ (forall s2 : SessionData, ip s2 = ip s -> rDNS s2 = rDNS s ->
        hasReverseDNS s2 = hasReverseDNS s ->
        overallReputation (linkIdentifyCb ToLower r ts s2 method h) = overallReputation s').
Proof.
  intros s'. split; [exact (identify_ranges_aux ToLower r ts s method h Hr)|].
  intros s2 Hip Hrd Hhas. subst s'. unfold linkIdentifyCb. rewrite Hip, Hrd, Hhas.
  destruct (hasReverseDNS s); [destruct (String.eqb (ToLower h) (rDNS s))|];
    reflexivity.
Qed.

(** For an overall trust in [0,1], MAIL FROM and RCPT TO keep it in [0,1];
    an "ok" result never lowers it and leaves the failure counter alone,
    any other result never raises it and adds one failure; the command
    counter goes up by one either way. *)
Theorem mail_rcpt_direction (s : SessionData) (result : string)
    (Ho : 0 <= overallReputation s <= 1) :
  let m := txMailCb s result in
  let c := txRcptCb s result in
  0 <= overallReputation m <= 1 /\ 0 <= overallReputation c <= 1
  /\ (result = "ok" ->
      overallReputation s <= overallReputation m /\ overallReputation s <= overallReputation c
      /\ failedMail m = failedMail s /\ failedRcpt c = failedRcpt s)
  /\ (result <> "ok" ->
      overallReputation m <= overallReputation s /\ overallReputation c <= overallReputation s
      /\ failedMail m = S (failedMail s) /\ failedRcpt c = S (failedRcpt s))
  /\ txMailFrom m = S (txMailFrom s) /\ txRcptTo c = S (txRcptTo s).
Proof.
  intros m c. subst m c. unfold txMailCb, txRcptCb.
  destruct (String.eqb result "ok") eqn:E; cbv beta iota delta [negb];
    cbn [overallReputation failedMail failedRcpt txMailFrom txRcptTo setActivity].
  - apply String.eqb_eq in E.
    pose proof (applyReward_range "mailFrom" (overallReputation s)).
    pose proof (applyReward_range "recipient" (overallReputation s)).
    pose proof (applyReward_ge "mailFrom" (overallReputation s) Ho).
    pose proof (applyReward_ge "recipient" (overallReputation s) Ho).
    split; [done|]. split; [done|]. split; [intros _; split; [done|split; [done|split; reflexivity]]|].
    split; [intros E'; congruence|]. split; lia.
  - apply String.eqb_neq in E.
    pose proof (applyPenalty_range "mailFrom" (overallReputation s)).
    pose proof (applyPenalty_range "recipient" (overallReputation s)).
    pose proof (applyPenalty_le "mailFrom" (overallReputation s) Ho).
    pose proof (applyPenalty_le "recipient" (overallReputation s) Ho).
    split; [done|]. split; [done|]. split; [intros E'; congruence|].
    split; [intros _; split; [done|split; [done|split; reflexivity]]|]. split; lia.
Qed.

(** AUTH (successful or not), STARTTLS, RSET, transaction begin, DATA,
    commit and rollback move none of the session's trusts and none of the
    names it is keyed by. *)
Theorem activity_keeps_trust (s : SessionData) (result : string) (s' : SessionData)
    (Hin : In s' [linkAuthCb s result; linkTLSCb s; txResetCb s; txBeginCb s;
                  txDataCb s; txCommitCb s; txRollbackCb s]) :
  overallReputation s' = overallReputation s /\ ipReputation s' = ipReputation s
  /\ rdnsReputation s' = rdnsReputation s /\ heloReputation s' = heloReputation s
  /\ ip s' = ip s /\ rDNS s' = rDNS s /\ heloname s' = heloname s.
Proof.
  cbn [In] in Hin.
  repeat (destruct Hin as [<-|Hin]; [|]);
    try contradiction;
    try (unfold linkAuthCb; destruct (negb _));
    repeat split.
Qed.

Definition nonTcpConnect (ev : Historical.Event) : bool :=
  match ev with Historical.LinkConnect _ _ _ (OtherAddr _) => true | _ => false end.

Lemma linkConnectCb_tcp (ToLower : string -> string) (r : Reputation) (ts : Z)
    (s : SessionData) (rd fc ip' : string) :
  exists s', linkConnectCb ToLower r ts s rd fc (TCPAddr ip') = Some s'.
Proof.
  unfold linkConnectCb.
  destruct (String.eqb rd "<unknown>"), (String.eqb fc "ok");
    cbv beta iota zeta delta [negb]; eexists; reflexivity.
Qed.

Lemma handle_None_iff (ToLower : string -> string) (ev : Historical.Event)
    (r : Reputation) (s : SessionData) :
  handle ToLower ev (r, s) = None <-> nonTcpConnect ev = true.
Proof.
  destruct ev as [ts rd fc [ip'|net]| | | | | | | | | | |];
    unfold handle; cbv beta iota zeta delta [nonTcpConnect];
    try (split; discriminate).
  - destruct (linkConnectCb_tcp ToLower r ts s rd fc ip') as [s' ->].
    cbv [mbind option_bind]. split; discriminate.
  - cbv [mbind option_bind linkConnectCb]. split; reflexivity.
Qed.

(** A session run panics exactly when one of its events is a connect from
    a source that is not a TCP address: no other event ever fails. *)
Theorem run_panics_iff (ToLower : string -> string) (evs : list Historical.Event)
    (r : Reputation) (s : SessionData) :
  run ToLower evs (r, s) = None <-> Exists (fun ev => nonTcpConnect ev = true) evs.
Proof.
  revert r s. induction evs as [|ev evs IH]; intros r s.
  - cbn [run]. split; [discriminate|intros H; inversion H].
  - cbn [run]. destruct (handle ToLower ev (r, s)) as [[r' s']|] eqn:E;
      cbv [mbind option_bind].
    + rewrite IH. split.
      * intros H. apply Exists_cons_tl. exact H.
      * intros H. inversion H as [? ? Hh|? ? Ht]; subst; [|exact Ht].
        apply (handle_None_iff ToLower ev r s) in Hh. congruence.
    + split; [intros _|reflexivity]. apply Exists_cons_hd.
      apply (handle_None_iff ToLower ev r s). exact E.
Qed.
Ltac range_facts v :=
  pose proof (applyPenalty_range "mailFrom" v);
  pose proof (applyReward_range "mailFrom" v);
  pose proof (applyPenalty_range "recipient" v);
  pose proof (applyReward_range "recipient" v).

Lemma handle_keeps_ranges (ToLower : string -> string) (ev : Historical.Event)
    (r r' : Reputation) (s s' : SessionData) :
  tablesInRange r -> sessionInRange s ->
  handle ToLower ev (r, s) = Some (r', s') -> tablesInRange r' /\ sessionInRange s'.
Proof.
  intros Hr Hs H. pose proof Hs as [Ho [Hi [Hd Hh]]].
  range_facts (overallReputation s).
  destruct ev as [ts rd fc src|ts|ts method h|ts result user|ts tls|ts|ts
                  |ts result from|ts result to|ts result|ts size|ts];
    unfold handle in H; cbv beta iota zeta in H.
  - destruct (linkConnectCb ToLower r ts s rd fc src) as [s0|] eqn:E;
      cbv [mbind option_bind] in H; [|discriminate].
    injection H as <- <-. split; [exact Hr|].
    destruct (connect_ranges_aux ToLower r ts s s0 rd fc src Hr E) as [A [B [C D]]].
    unfold sessionInRange. rewrite D. repeat split; lra.
  - injection H as <- <-. unfold linkDisconnectCb, Feedback, tablesInRange, sessionInRange.
    destruct Hr as [Hr1 [Hr2 Hr3]].
    cbn [ipAddress rdns hostname overallReputation ipReputation rdnsReputation
         heloReputation setResourceReputations].
    pose proof (clamp_range ((ipReputation s + overallReputation s * ipWeight) / 2)).
    pose proof (clamp_range ((rdnsReputation s + overallReputation s * rdnsWeight) / 2)).
    pose proof (clamp_range ((heloReputation s + overallReputation s * helonameWeight) / 2)).
    split; [split; [|split]|]; try (apply map_Forall_insert_2; done).
    repeat split; lra.
  - injection H as <- <-. split; [exact Hr|].
    destruct (identify_ranges_aux ToLower r ts s method h Hr) as [A [B [C [D _]]]].
    unfold sessionInRange. rewrite C, D. repeat split; lra.
  - injection H as <- <-. split; [exact Hr|]. unfold linkAuthCb.
    destruct (negb _); exact Hs.
  - injection H as <- <-. split; [exact Hr|]. exact Hs.
  - injection H as <- <-. split; [exact Hr|]. exact Hs.
  - injection H as <- <-. split; [exact Hr|]. exact Hs.
  - injection H as <- <-. split; [exact Hr|]. unfold txMailCb, sessionInRange.
    destruct (negb _); cbn [overallReputation ipReputation rdnsReputation
      heloReputation setActivity]; repeat split; lra.
  - injection H as <- <-. split; [exact Hr|]. unfold txRcptCb, sessionInRange.
    destruct (negb _); cbn [overallReputation ipReputation rdnsReputation
      heloReputation setActivity]; repeat split; lra.
  - injection H as <- <-. split; [exact Hr|]. exact Hs.
  - injection H as <- <-. split; [exact Hr|]. exact Hs.
  - injection H as <- <-. split; [exact Hr|]. exact Hs.
Qed.

(** Starting from tables and a session whose trusts all lie in [0,1], any
    run of events that does not panic ends with tables and a session whose
    trusts all lie in [0,1]. *)
Theorem run_keeps_ranges (ToLower : string -> string) (evs : list Historical.Event)
    (r r' : Reputation) (s s' : SessionData)
    (Hr : tablesInRange r) (Hs : sessionInRange s)
    (H : run ToLower evs (r, s) = Some (r', s')) :
  tablesInRange r' /\ sessionInRange s'.
Proof.
  revert r s Hr Hs H. induction evs as [|ev evs IH]; intros r s Hr Hs H.
  - cbn [run] in H. injection H as <- <-. done.
  - cbn [run] in H.
    destruct (handle ToLower ev (r, s)) as [[r1 s1]|] eqn:E;
      cbv [mbind option_bind] in H; [|discriminate].
    destruct (handle_keeps_ranges ToLower ev r r1 s s1 Hr Hs E) as [Hr1 Hs1].
    exact (IH r1 s1 Hr1 Hs1 H).
Qed.

Lemma feedback_bounds_witness :
  sessionInRange zeroSession /\
  ipReputation (snd (linkDisconnectCb NewReputation 0 zeroSession)) <= 3#4.
Proof.
  assert (Hs : sessionInRange zeroSession)
    by (repeat split; vm_compute; discriminate).
  split; [exact Hs|].
  pose proof (feedback_bounds NewReputation 0 zeroSession) as F.
  destruct (linkDisconnectCb NewReputation 0 zeroSession) as [r' s'].
  destruct F as [_ F]. apply F. exact Hs.
Defined.

Lemma connect_ranges_witness :
  tablesInRange NewReputation /\
  exists s', linkConnectCb (fun x => x) NewReputation 0 zeroSession "mail.example.org" "ok"
               (TCPAddr "192.0.2.1") = Some s' /\ 0 <= overallReputation s' <= 2#5.
Proof.
  assert (Hr : tablesInRange NewReputation) by (split; [|split]; apply map_Forall_empty).
  split; [exact Hr|].
  eexists. split; [reflexivity|].
  refine (proj1 (connect_ranges (fun x => x) NewReputation 0 zeroSession _
                   "mail.example.org" "ok" (TCPAddr "192.0.2.1") Hr _)).
  reflexivity.
Defined.

Lemma identify_ranges_witness :
  tablesInRange NewReputation /\
  0 <= overallReputation
         (linkIdentifyCb (fun x => x) NewReputation 0 zeroSession "EHLO" "mail.example.org")
       <= 1#3.
Proof.
  assert (Hr : tablesInRange NewReputation) by (split; [|split]; apply map_Forall_empty).
  split; [exact Hr|].
  exact (proj1 (proj1 (identify_ranges (fun x => x) NewReputation 0 zeroSession "EHLO"
                         "mail.example.org" Hr))).
Defined.

Lemma mail_rcpt_direction_witness :
  0 <= overallReputation zeroSession <= 1 /\
  0 <= overallReputation (txMailCb zeroSession "ok") <= 1.
Proof.
  assert (Ho : 0 <= overallReputation zeroSession <= 1)
    by (split; vm_compute; discriminate).
  split; [exact Ho|].
  exact (proj1 (mail_rcpt_direction zeroSession "ok" Ho)).
Defined.

Lemma activity_keeps_trust_witness :
  In (txBeginCb zeroSession)
     [linkAuthCb zeroSession "fail"; linkTLSCb zeroSession; txResetCb zeroSession;
      txBeginCb zeroSession; txDataCb zeroSession; txCommitCb zeroSession;
      txRollbackCb zeroSession] /\
  overallReputation (txBeginCb zeroSession) = overallReputation zeroSession.
Proof.
  assert (Hin : In (txBeginCb zeroSession)
     [linkAuthCb zeroSession "fail"; linkTLSCb zeroSession; txResetCb zeroSession;
      txBeginCb zeroSession; txDataCb zeroSession; txCommitCb zeroSession;
      txRollbackCb zeroSession]) by (cbn [In]; right; right; right; left; reflexivity).
  split; [exact Hin|].
  exact (proj1 (activity_keeps_trust zeroSession "fail" (txBeginCb zeroSession) Hin)).
Defined.

Lemma run_keeps_ranges_witness :
  tablesInRange NewReputation /\ sessionInRange zeroSession /\
  exists r' s',
    run (fun x => x) [Historical.LinkConnect 0 "mail.example.org" "ok" (TCPAddr "192.0.2.1");
                      Historical.TxMail 1 "ok" "a@example.org";
                      Historical.LinkDisconnect 2] (NewReputation, zeroSession) = Some (r', s')
    /\ tablesInRange r' /\ sessionInRange s'.
Proof.
  assert (Hr : tablesInRange NewReputation) by (split; [|split]; apply map_Forall_empty).
  assert (Hs : sessionInRange zeroSession)
    by (repeat split; vm_compute; discriminate).
  split; [exact Hr|]. split; [exact Hs|].
  set (evs := [Historical.LinkConnect 0 "mail.example.org" "ok" (TCPAddr "192.0.2.1");
               Historical.TxMail 1 "ok" "a@example.org";
               Historical.LinkDisconnect 2]).
  set (st := default (NewReputation, zeroSession) (run (fun x => x) evs (NewReputation, zeroSession))).
  assert (H : run (fun x => x) evs (NewReputation, zeroSession) = Some (fst st, snd st))
    by (vm_compute; reflexivity).
  exists (fst st), (snd st). split; [exact H|].
  exact (run_keeps_ranges (fun x => x) evs NewReputation (fst st) zeroSession (snd st) Hr Hs H).
Defined.

End IncrementalExtras.

Module HandlerTotality.


End HandlerTotality.
